(** * setup_env.py: project bootstrap, modelled over an explicit filesystem

    The script creates a fixed directory tree below a root, drops a
    [.gitkeep] marker into every directory of the list, probes the
    accelerator flags of the torch runtime and records the selected device
    in [config/device_config.txt].

    The Python functions are embedded as computations in a state and
    exception monad over a [world]: the filesystem, a clock, the working
    directory and the lines emitted by the logger.  The operating-system
    calls the script reaches through [pathlib], [open] and [os] are modelled
    with their POSIX results.

    Extent of the model.  An entry of the tree is a directory or a regular
    file: there are no symbolic links, FIFOs, sockets or devices.  An entry
    has one permission bit, which stands for both the right to write it and
    the right to re-stamp it.  The working directory is a path the process
    can always name.  The one write of the script, the token flushed when
    the configuration file is closed, meets a [storage] that accepts or
    refuses it; the creation of entries is not limited by space.  The
    queries to torch and the logger return. *)

From Stdlib Require Import ZArith String Ascii List.
From stdpp Require Import gmap strings list fin_maps.

Local Open Scope string_scope.

(** ** Paths *)

(** A path is the list of its components, innermost first, so that
    [Path.parent] is the tail and the filesystem root is [[]]. *)
Abbreviation path := (list string).

Definition parent (p : path) : path := tail p.

(** Components of a ['/']-separated relative string, outermost first. *)
Fixpoint split_slash (acc : string) (s : string) : list string :=
  match s with
  | EmptyString => [String.rev acc]
  | String c s' =>
      if Ascii.eqb c "/"%char
      then String.rev acc :: split_slash EmptyString s'
      else split_slash (String c acc) s'
  end.

Definition parts (s : string) : list string :=
  filter (fun c => c ≠ EmptyString) (split_slash EmptyString s).

(** [root / rel] for a relative [rel]. *)
Definition joinpath (root : path) (rel : string) : path :=
  rev (parts rel) ++ root.

Infix "//" := joinpath (at level 40, left associativity).

(** ** Filesystem *)

Inductive kind :=
| Dir
| File (content : string).

(** An entry of the tree.  [writable] says that the process may change the
    entry: add entries to a directory, re-stamp or write a file. *)
Record node := Node { nkind : kind; mtime : nat; writable : bool }.

(** The [OSError] subclasses the calls of the script can raise; [OSError]
    itself stands for the error of a write the storage refuses (no space
    left, quota exceeded, input/output error). *)
Inductive exn :=
| FileNotFoundError
| FileExistsError
| NotADirectoryError
| IsADirectoryError
| PermissionError
| OSError.

(** What the storage does with the text a file object flushes. *)
Inductive storage :=
| Accepts
| Refuses.

(** The lines of the script, one constructor per format string, with the
    values that fill it. *)
Inductive message :=
| MsgStart
| MsgCuda (gpu_name : string) (total_memory : Z)
| MsgMps
| MsgNoAcceleration
| MsgCreated (dir_path : path)
| MsgFailed (dir_path : path) (e : exn)
| MsgSuccess (device_upper : string)
| MsgRoot (project_root : path).

Inductive level := INFO | WARNING | ERROR.

Record world := World {
  fs : gmap path node;
  clock : nat;
  cwd : path;
  log : list (level * message)
}.

Definition is_Dir (n : node) : bool :=
  match nkind n with Dir => true | File _ => false end.

Definition check (m : gmap path node) (p : path) : option exn :=
  match m !! p with
  | None => Some FileNotFoundError
  | Some n => if is_Dir n then None else Some NotADirectoryError
  end.

(** Path resolution through [p], every component of which has to be a
    directory; the error is that of the outermost offending component. *)
Fixpoint walk (m : gmap path node) (p : path) : option exn :=
  match p with
  | [] => check m p
  | _ :: q =>
      match walk m q with
      | Some e => Some e
      | None => check m p
      end
  end.

(** Resolution of the directory that holds [p]. *)
Definition walk_parent (m : gmap path node) (p : path) : option exn :=
  match p with
  | [] => None
  | _ :: q => walk m q
  end.

Definition writable_at (m : gmap path node) (p : path) : bool :=
  match m !! p with
  | Some n => writable n
  | None => false
  end.

Definition set_mtime (t : nat) (n : node) : node :=
  Node (nkind n) t (writable n).

Definition set_content (c : string) (t : nat) (n : node) : node :=
  Node (File c) t (writable n).

(** A new entry [p] of kind [k]: the entry is stamped, and so is the
    directory that receives it. *)
Definition create (p : path) (k : kind) (w : world) : world :=
  World (<[p := Node k (clock w) true]> (alter (set_mtime (clock w)) (parent p) (fs w)))
        (S (clock w)) (cwd w) (log w).

Definition stamp (p : path) (w : world) : world :=
  World (alter (set_mtime (clock w)) p (fs w)) (S (clock w)) (cwd w) (log w).

Definition truncate (p : path) (w : world) : world :=
  World (alter (set_content EmptyString (clock w)) p (fs w)) (S (clock w)) (cwd w) (log w).

Definition append (p : path) (data : string) (w : world) : world :=
  World (alter (fun n => match nkind n with
                         | File c => set_content (c ++ data) (clock w) n
                         | Dir => n
                         end) p (fs w))
        (S (clock w)) (cwd w) (log w).

Definition emit (l : level) (msg : message) (w : world) : world :=
  World (fs w) (clock w) (cwd w) (log w ++ [(l, msg)]).

(** ** The monad of the script *)

Inductive outcome (A : Type) :=
| Ret (a : A) (w : world)
| Raise (e : exn) (w : world)
| Exit (code : Z) (w : world).

Arguments Ret {A} a w.
Arguments Raise {A} e w.
Arguments Exit {A} code w.

Definition M (A : Type) : Type := world → outcome A.

Definition ret {A} (a : A) : M A := fun w => Ret a w.

Definition bind {A B} (m : M A) (k : A → M B) : M B :=
  fun w =>
    match m w with
    | Ret a w' => k a w'
    | Raise e w' => Raise e w'
    | Exit c w' => Exit c w'
    end.

Definition raise {A} (e : exn) : M A := fun w => Raise e w.

(** [try: m except Exception as e: h e]; [SystemExit] is not an
    [Exception] and passes through. *)
Definition try_except {A} (m : M A) (h : exn → M A) : M A :=
  fun w =>
    match m w with
    | Raise e w' => h e w'
    | r => r
    end.

Notation "x <- m ;; k" := (bind m (fun x => k))
  (at level 100, m at next level, right associativity).
Notation "m ;; k" := (bind m (fun _ => k))
  (at level 100, right associativity).

Fixpoint for_each {A} (l : list A) (body : A → M unit) : M unit :=
  match l with
  | [] => ret tt
  | x :: rest => body x ;; for_each rest body
  end.

(** Status the interpreter hands to the operating system: an uncaught
    exception prints a traceback and gives 1. *)
Definition exit_status {A} (r : outcome A) : Z :=
  match r with
  | Ret _ _ => 0
  | Raise _ _ => 1
  | Exit c _ => c
  end.

Definition final {A} (r : outcome A) : world :=
  match r with
  | Ret _ w | Raise _ w | Exit _ w => w
  end.

Definition raised {A} (r : outcome A) : option exn :=
  match r with
  | Raise e _ => Some e
  | _ => None
  end.

Definition returned {A} (r : outcome A) : option A :=
  match r with
  | Ret a _ => Some a
  | _ => None
  end.

Definition is_Ret {A} (r : outcome A) : bool :=
  match r with
  | Ret _ _ => true
  | _ => false
  end.

(** ** System calls *)

(** [os.mkdir(p)] *)
Definition os_mkdir (p : path) : M unit := fun w =>
  match p with
  | [] =>
      match walk (fs w) [] with
      | Some e => Raise e w
      | None => Raise FileExistsError w
      end
  | _ :: q =>
      match walk (fs w) q with
      | Some e => Raise e w
      | None =>
          match fs w !! p with
          | Some _ => Raise FileExistsError w
          | None =>
              if writable_at (fs w) q
              then Ret tt (create p Dir w)
              else Raise PermissionError w
          end
      end
  end.

(** [os.utime(p, None)] *)
Definition os_utime (p : path) : M unit := fun w =>
  match walk_parent (fs w) p with
  | Some e => Raise e w
  | None =>
      match fs w !! p with
      | None => Raise FileNotFoundError w
      | Some n =>
          if writable n then Ret tt (stamp p w) else Raise PermissionError w
      end
  end.

(** [os.open(p, O_CREAT | O_WRONLY)], with [O_TRUNC] when [trunc]; the
    descriptor is identified with the path it was opened on. *)
Definition os_open (trunc : bool) (p : path) : M path := fun w =>
  match walk_parent (fs w) p with
  | Some e => Raise e w
  | None =>
      match fs w !! p with
      | None =>
          match p with
          | [] => Raise FileNotFoundError w
          | _ :: q =>
              if writable_at (fs w) q
              then Ret p (create p (File EmptyString) w)
              else Raise PermissionError w
          end
      | Some n =>
          if is_Dir n then Raise IsADirectoryError w
          else if writable n
               then Ret p (if trunc then truncate p w else w)
               else Raise PermissionError w
      end
  end.

(** [os.close(fd)] on a descriptor nothing was written to, as in
    [Path.touch]. *)
Definition os_close (f : path) : M unit := ret tt.

(** [Path.is_dir()] *)
Definition is_dir (p : path) (w : world) : bool :=
  match walk (fs w) p with
  | None => true
  | Some _ => false
  end.

(** ** pathlib, open and logging *)

(** The [except OSError] arm of [Path.mkdir]. *)
Definition mkdir_exists (p : path) (exist_ok : bool) (e : exn) : M unit :=
  fun w => if negb exist_ok || negb (is_dir p w) then Raise e w else Ret tt w.

(** [Path.mkdir(parents=False, exist_ok=exist_ok)] *)
Definition mkdir_flat (p : path) (exist_ok : bool) : M unit :=
  try_except (os_mkdir p)
    (fun e =>
       match e with
       | FileNotFoundError => raise FileNotFoundError
       | _ => mkdir_exists p exist_ok e
       end).

(** [Path.mkdir(parents=True, exist_ok=exist_ok)]: the method calls itself
    on the parent with [parents=True, exist_ok=True] and then on the same
    path with [parents=False], which is [mkdir_flat]. *)
Fixpoint mkdir_parents (p : path) (exist_ok : bool) : M unit :=
  try_except (os_mkdir p)
    (fun e =>
       match e with
       | FileNotFoundError =>
           match p with
           | [] => raise FileNotFoundError
           | _ :: q => mkdir_parents q true ;; mkdir_flat p exist_ok
           end
       | _ => mkdir_exists p exist_ok e
       end).

(** [Path.touch()] (with its default [exist_ok=True]) *)
Definition touch (p : path) : M unit :=
  try_except (os_utime p)
    (fun _ => fd <- os_open false p ;; os_close fd).

(** [open(name, "w")]; a relative [name] is resolved against the working
    directory of the process. *)
Definition open_w (name : string) : M path :=
  fun w => os_open true (cwd w // name) w.

(** [f.write(data)] for a short text: the text goes to the buffer of the
    file object [f] and is returned here as what is pending. *)
Definition file_write (f : path) (data : string) : M string :=
  ret data.

(** The end of the [with] block: the file object is closed, which flushes
    the pending text to the storage [st]; a refused write raises. *)
Definition file_close (st : storage) (f : path) (pending : string) : M unit :=
  fun w =>
    match st with
    | Accepts => Ret tt (append f pending w)
    | Refuses => Raise OSError w
    end.

(** The logger passes every level from [INFO] up to its one handler. *)
Definition logger_info (msg : message) : M unit :=
  fun w => Ret tt (emit INFO msg w).
Definition logger_warning (msg : message) : M unit :=
  fun w => Ret tt (emit WARNING msg w).
Definition logger_error (msg : message) : M unit :=
  fun w => Ret tt (emit ERROR msg w).

Definition sys_exit {A} (code : Z) : M A := fun w => Exit code w.

Definition os_getcwd : M path := fun w => Ret (cwd w) w.

(** [str.upper] on ASCII letters *)
Definition upper_ascii (c : ascii) : ascii :=
  let n := nat_of_ascii c in
  if (97 <=? n)%nat && (n <=? 122)%nat then ascii_of_nat (n - 32) else c.

Fixpoint upper (s : string) : string :=
  match s with
  | EmptyString => EmptyString
  | String c s' => String (upper_ascii c) (upper s')
  end.

(** ** The torch runtime *)

(** What the queries of the script answer: [torch.cuda.is_available()],
    [torch.backends.mps.is_available()], [torch.cuda.get_device_name(0)]
    and [torch.cuda.get_device_properties(0).total_memory]. *)
Record torch := Torch {
  cuda_is_available : bool;
  mps_is_available : bool;
  cuda_device_name : string;
  cuda_total_memory : Z
}.

(** ** setup_env.py *)

Definition PROJECT_STRUCTURE : list string := [
  "data/raw/images";
  "data/raw/text";
  "data/processed/embeddings";
  "data/processed/graph";
  "src/encoders";
  "src/graph";
  "src/fusion";
  "src/utils";
  "models/checkpoints";
  "models/exported";
  "logs";
  "notebooks";
  "config"
].

(** The prober on a storage [st].  The three branches give [device] its
    value; it starts as "cpu" and the first two branches overwrite it. *)
Definition check_hardware_acceleration_on (st : storage) (rt : torch) : M string :=
  device <- (if cuda_is_available rt then
               logger_info (MsgCuda (cuda_device_name rt) (cuda_total_memory rt)) ;;
               ret "cuda"
             else if mps_is_available rt then
               logger_info MsgMps ;; ret "mps"
             else
               logger_warning MsgNoAcceleration ;; ret "cpu") ;;
  f <- open_w "config/device_config.txt" ;;
  pending <- file_write f device ;;
  file_close st f pending ;;
  ret device.

(** The prober where the storage accepts the few bytes of the token. *)
Definition check_hardware_acceleration (rt : torch) : M string :=
  check_hardware_acceleration_on Accepts rt.

(** The [try] block of the loop of [initialize_directories]. *)
Definition folder_body (dir_path : path) : M unit :=
  mkdir_parents dir_path true ;;
  touch (dir_path // ".gitkeep") ;;
  logger_info (MsgCreated dir_path).

(** One iteration of the loop. *)
Definition make_folder (root : path) (folder : string) : M unit :=
  let dir_path := root // folder in
  try_except
    (folder_body dir_path)
    (fun e =>
       logger_error (MsgFailed dir_path e) ;;
       sys_exit 1).

(** [root] is the location [Path(root_path)] denotes. *)
Definition initialize_directories (root : path) : M unit :=
  for_each PROJECT_STRUCTURE (make_folder root).

(** The process runs [main] and nothing after it. *)
Definition main (rt : torch) : M unit :=
  logger_info MsgStart ;;
  project_root <- os_getcwd ;;
  initialize_directories project_root ;;
  device <- check_hardware_acceleration rt ;;
  logger_info (MsgSuccess (upper device)) ;;
  logger_info (MsgRoot project_root).

(** * Vocabulary of the statements *)

Local Open Scope list_scope.

(** ** How a computation may change the tree *)

(** Every entry of [m] is still in [m'], with its kind, content and
    permission; its timestamp may have moved. *)
Definition keeps (m m' : gmap path node) : Prop :=
  ∀ p n, m !! p = Some n →
         ∃ n', m' !! p = Some n' ∧ nkind n' = nkind n ∧ writable n' = writable n.

(** Every entry that [m'] has and [m] lacks is writable and allowed by
    [new]. *)
Definition adds (new : path → kind → Prop) (m m' : gmap path node) : Prop :=
  ∀ p n', m' !! p = Some n' → m !! p = None →
          writable n' = true ∧ new p (nkind n').

Definition evolves (new : path → kind → Prop) (m m' : gmap path node) : Prop :=
  keeps m m' ∧ adds new m m'.

(** The same entries with the same kinds, contents and permissions; a
    timestamp may differ on the paths of [S] only. *)
Definition same_tree (S : path → Prop) (m m' : gmap path node) : Prop :=
  ∀ p, match m !! p, m' !! p with
       | None, None => True
       | Some n, Some n' =>
           nkind n' = nkind n ∧ writable n' = writable n ∧
           (mtime n' ≠ mtime n → S p)
       | _, _ => False
       end.

(** Working directory and log are those of [w]. *)
Definition same_env (w w' : world) : Prop :=
  cwd w' = cwd w ∧ log w' = log w.

(** ** What the initializer may add *)

Definition marker (dir_path : path) : path := dir_path // ".gitkeep".

Definition new_dir (p : path) : path → kind → Prop :=
  fun q k => q = p ∧ k = Dir.

(** [p] or one of its ancestors, as a directory. *)
Definition new_dirs (p : path) : path → kind → Prop :=
  fun q k => q `suffix_of` p ∧ k = Dir.

Definition new_file (p : path) : path → kind → Prop :=
  fun q k => q = p ∧ k = File EmptyString.

Definition new_folder (d : path) : path → kind → Prop :=
  fun q k => new_dirs d q k ∨ new_file (marker d) q k.

Definition new_tree (root : path) (l : list string) : path → kind → Prop :=
  fun q k => ∃ f, f ∈ l ∧ new_folder (root // f) q k.

(** The trees the loop of the initializer goes through when it starts
    from [m0]. *)
Definition reached_from (root : path) (m0 m : gmap path node) : Prop :=
  evolves (new_tree root PROJECT_STRUCTURE) m0 m.

(** ** States of a tree *)

Definition has_marker (m : gmap path node) (d : path) : Prop :=
  ∃ n, m !! marker d = Some n ∧ writable n = true.

Definition is_marker (root : path) (l : list string) : path → Prop :=
  fun p => ∃ f, f ∈ l ∧ p = marker (root // f).

(** Every folder of [l] resolves below [root] and has its marker. *)
Definition initialized (root : path) (l : list string) (m : gmap path node) : Prop :=
  ∀ f, f ∈ l → walk m (root // f) = None ∧ has_marker m (root // f).

(** Nothing stands in the way of [mkdir(parents=True, exist_ok=True)]:
    every component that exists is a directory, and a directory that lacks
    its next component accepts new entries. *)
Fixpoint clear_way (m : gmap path node) (p : path) : Prop :=
  match p with
  | [] => check m [] = None
  | c :: q =>
      clear_way m q ∧
      match m !! (c :: q) with
      | Some n => is_Dir n = true
      | None =>
          match m !! q with
          | Some n => writable n = true
          | None => True
          end
      end
  end.

(** [d] resolves, accepts new entries and has nothing below it. *)
Definition empty_directory (m : gmap path node) (d : path) : Prop :=
  walk m d = None ∧ writable_at m d = true ∧ ∀ r, r ≠ [] → m !! (r ++ d) = None.

(** The text of the regular file at [p]. *)
Definition content_at (p : path) (w : world) : option string :=
  match fs w !! p with
  | Some n => match nkind n with File c => Some c | Dir => None end
  | None => None
  end.

(** ** The prober *)

(** The value of [device] once the [if]/[elif]/[else] is through. *)
Definition selected_device (rt : torch) : string :=
  if cuda_is_available rt then "cuda"
  else if mps_is_available rt then "mps"
  else "cpu".

(** The line the branch taken logs. *)
Definition selection_line (rt : torch) : level * message :=
  if cuda_is_available rt then
    (INFO, MsgCuda (cuda_device_name rt) (cuda_total_memory rt))
  else if mps_is_available rt then (INFO, MsgMps)
  else (WARNING, MsgNoAcceleration).

(** Where the relative path of the configuration file leads. *)
Definition config_file (w : world) : path := cwd w // "config/device_config.txt".

Definition valid_tokens : list string := ["cpu"; "cuda"; "mps"].




(** ** Sample machines and trees *)

Definition rt_cuda : torch := Torch true true "NVIDIA A100" 42949672960.

Definition rt_cuda_t4 : torch := Torch true true "Tesla T4" 16106127360.

Definition rt_mps : torch := Torch false true "" 0.

Definition rt_cpu : torch := Torch false false "" 0.

(** [/proj], empty, is the working directory. *)
Definition w_empty_project : world :=
  World {[ [] := Node Dir 0 true; ["proj"] := Node Dir 0 true ]} 1 ["proj"] [].

(** [/proj/logs/.gitkeep] is a directory. *)
Definition w_marker_is_dir : world :=
  World {[ [] := Node Dir 0 true;
           ["proj"] := Node Dir 0 true;
           ["logs"; "proj"] := Node Dir 0 true;
           [".gitkeep"; "logs"; "proj"] := Node Dir 0 true ]}
        1 ["proj"] [].

(** [/proj/logs/.gitkeep] is a file with content. *)
Definition w_marker_has_content : world :=
  World {[ [] := Node Dir 0 true;
           ["proj"] := Node Dir 0 true;
           ["logs"; "proj"] := Node Dir 0 true;
           [".gitkeep"; "logs"; "proj"] := Node (File "keep me") 0 true ]}
        1 ["proj"] [].

(** [/proj] does not accept new entries. *)
Definition w_read_only_project : world :=
  World {[ [] := Node Dir 0 true; ["proj"] := Node Dir 0 false ]} 1 ["proj"] [].

(** [/proj/data] is a regular file. *)
Definition w_data_is_a_file : world :=
  World {[ [] := Node Dir 0 true;
           ["proj"] := Node Dir 0 true;
           ["data"; "proj"] := Node (File "rows") 0 true ]}
        1 ["proj"] [].

(** [/proj/config/device_config.txt] exists with some older text. *)
Definition w_with_config : world :=
  World {[ [] := Node Dir 0 true;
           ["proj"] := Node Dir 0 true;
           ["config"; "proj"] := Node Dir 0 true;
           ["device_config.txt"; "config"; "proj"] := Node (File "stale text") 0 true ]}
        1 ["proj"] [].

(** [/proj/config] is a regular file. *)
Definition w_config_is_a_file : world :=
  World {[ [] := Node Dir 0 true;
           ["proj"] := Node Dir 0 true;
           ["config"; "proj"] := Node (File "key = value") 0 true ]}
        1 ["proj"] [].

(** [/proj/src] is a regular file. *)
Definition w_src_is_a_file : world :=
  World {[ [] := Node Dir 0 true;
           ["proj"] := Node Dir 0 true;
           ["src"; "proj"] := Node (File "print(1)") 0 true ]}
        1 ["proj"] [].

(** Another machine: [/home/config] exists, the file does not. *)
Definition w_other_project : world :=
  World {[ [] := Node Dir 5 true;
           ["home"] := Node Dir 6 true;
           ["config"; "home"] := Node Dir 7 true ]}
        9 ["home"] [(INFO, MsgStart)].

(** * Properties *)

Lemma is_Ret_final (r : outcome unit) : is_Ret r = true → r = Ret tt (final r).
Proof. destruct r as [[] w| |]; simpl; [reflexivity | discriminate | discriminate]. Qed.

Lemma is_Ret_device (r : outcome string) d :
  is_Ret r = true ∧ returned r = Some d → r = Ret d (final r).
Proof. destruct r; simpl; intros [H1 H2]; congruence. Qed.

Lemma in_project_structure folder :
  bool_decide (folder ∈ PROJECT_STRUCTURE) = true → folder ∈ PROJECT_STRUCTURE.
Proof. apply bool_decide_eq_true_1. Qed.

(** ** The model at work *)

Example parts_of_a_folder : parts "data/raw/images" = ["data"; "raw"; "images"].
Proof. reflexivity. Qed.

Example marker_of_a_folder :
  ["proj"] // "data/raw/images" // ".gitkeep" =
  [".gitkeep"; "images"; "raw"; "data"; "proj"].
Proof. reflexivity. Qed.

Example upper_of_a_device : upper "cuda" = "CUDA".
Proof. reflexivity. Qed.

Example devices_by_priority :
  returned (check_hardware_acceleration rt_cuda w_with_config) = Some "cuda" ∧
  returned (check_hardware_acceleration rt_mps w_with_config) = Some "mps" ∧
  returned (check_hardware_acceleration rt_cpu w_with_config) = Some "cpu".
Proof. vm_compute. split; [|split]; reflexivity. Qed.

Example log_of_a_run :
  log (final (main rt_mps w_empty_project)) =
  (INFO, MsgStart) ::
  map (fun folder => (INFO, MsgCreated (["proj"] // folder))) PROJECT_STRUCTURE ++
  [(INFO, MsgMps); (INFO, MsgSuccess "MPS"); (INFO, MsgRoot ["proj"])].
Proof. vm_compute. reflexivity. Qed.

Example permission_denied :
  exit_status (main rt_cpu w_read_only_project) = 1%Z ∧
  log (final (main rt_cpu w_read_only_project)) =
  [(INFO, MsgStart);
   (ERROR, MsgFailed (["proj"] // "data/raw/images") PermissionError)] ∧
  fs (final (main rt_cpu w_read_only_project)) !! ["data"; "proj"] = None.
Proof. vm_compute. split; [|split]; reflexivity. Qed.

Example blocked_by_a_file :
  exit_status (main rt_cpu w_data_is_a_file) = 1%Z ∧
  log (final (main rt_cpu w_data_is_a_file)) =
  [(INFO, MsgStart);
   (ERROR, MsgFailed (["proj"] // "data/raw/images") NotADirectoryError)].
Proof. vm_compute. split; reflexivity. Qed.

(** The entry point makes [config] before the prober writes into it. *)
Example config_directory_comes_first :
  raised (check_hardware_acceleration rt_cuda w_empty_project) = Some FileNotFoundError ∧
  exit_status (main rt_cuda w_empty_project) = 0%Z.
Proof. vm_compute. split; reflexivity. Qed.

(** ** Path resolution *)

Lemma check_None m p :
  check m p = None ↔ ∃ n, m !! p = Some n ∧ is_Dir n = true.
Proof.
  unfold check. destruct (m !! p) as [n|] eqn:E.
  - destruct (is_Dir n) eqn:D; split; intros H; try discriminate; eauto.
    destruct H as (n' & [= <-] & H). congruence.
  - split; [discriminate | intros (n & H & _); discriminate].
Qed.

Lemma walk_cons m c q :
  walk m (c :: q) = None ↔ walk m q = None ∧ check m (c :: q) = None.
Proof.
  simpl. destruct (walk m q); split; intros H; try discriminate; auto.
  - destruct H; discriminate.
  - destruct H; auto.
Qed.

Lemma walk_check m p : walk m p = None → check m p = None.
Proof. destruct p; [auto | intros H; apply walk_cons in H; tauto]. Qed.

Lemma walk_lookup m p :
  walk m p = None → ∃ n, m !! p = Some n ∧ is_Dir n = true.
Proof. intros H. apply check_None, walk_check, H. Qed.

Lemma walk_suffix m p s : s `suffix_of` p → walk m p = None → walk m s = None.
Proof.
  intros [k ->]. induction k as [|c k IH]; simpl; auto.
  destruct (walk m (k ++ s)); [discriminate | auto].
Qed.

(** Resolution only ever reports a missing or a non-directory component. *)
Lemma walk_error m p e :
  walk m p = Some e → e = FileNotFoundError ∨ e = NotADirectoryError.
Proof.
  assert (Hc : ∀ q, check m q = Some e →
                    e = FileNotFoundError ∨ e = NotADirectoryError).
  { intros q. unfold check. destruct (m !! q) as [n|]; [destruct (is_Dir n)|];
      intros [= <-]; auto. }
  induction p as [|c q IH]; simpl; [apply Hc|].
  destruct (walk m q) eqn:E; [intros [= <-]; auto | apply Hc].
Qed.

(** ** Trees that evolve *)

Lemma keeps_refl m : keeps m m.
Proof. intros p n H. eauto. Qed.

Lemma keeps_trans m1 m2 m3 : keeps m1 m2 → keeps m2 m3 → keeps m1 m3.
Proof.
  intros H12 H23 p n H.
  destruct (H12 p n H) as (n2 & H2 & K2 & W2).
  destruct (H23 p n2 H2) as (n3 & H3 & K3 & W3).
  exists n3. repeat split; congruence.
Qed.

Lemma evolves_refl new m : evolves new m m.
Proof. split; [apply keeps_refl | intros p n H1 H2; congruence]. Qed.

Lemma evolves_trans new m1 m2 m3 :
  evolves new m1 m2 → evolves new m2 m3 → evolves new m1 m3.
Proof.
  intros [K12 A12] [K23 A23]. split; [eapply keeps_trans; eauto|].
  intros p n3 H3 H1. destruct (m2 !! p) as [n2|] eqn:H2.
  - destruct (K23 p n2 H2) as (n3' & H3' & Kk & Kw).
    assert (n3' = n3) as -> by congruence.
    destruct (A12 p n2 H2 H1) as [W N]. split; congruence.
  - apply (A23 p n3 H3 H2).
Qed.

Lemma evolves_weaken (new new' : path → kind → Prop) m m' :
  (∀ p k, new p k → new' p k) → evolves new m m' → evolves new' m m'.
Proof.
  intros Hn [K A]. split; [exact K|].
  intros p n' H' H. destruct (A p n' H' H). auto.
Qed.

Lemma keeps_is_Dir m m' p n n' :
  keeps m m' → m !! p = Some n → m' !! p = Some n' → is_Dir n' = is_Dir n.
Proof.
  intros K H H'. destruct (K p n H) as (n'' & H'' & Kk & _).
  assert (n'' = n') as -> by congruence. unfold is_Dir. by rewrite Kk.
Qed.

Lemma keeps_check m m' p : keeps m m' → check m p = None → check m' p = None.
Proof.
  intros K H. apply check_None in H as (n & H & D).
  destruct (K p n H) as (n' & H' & Kk & _).
  apply check_None. exists n'. split; [done|]. unfold is_Dir in *. by rewrite Kk.
Qed.

Lemma keeps_walk m m' p : keeps m m' → walk m p = None → walk m' p = None.
Proof.
  intros K. induction p as [|c q IH]; simpl.
  - apply keeps_check, K.
  - destruct (walk m q); [discriminate|]. rewrite IH by done.
    apply keeps_check, K.
Qed.

Lemma keeps_writable_at m m' p :
  keeps m m' → writable_at m p = true → writable_at m' p = true.
Proof.
  unfold writable_at. intros K. destruct (m !! p) as [n|] eqn:H; [|discriminate].
  destruct (K p n H) as (n' & -> & _ & ->). done.
Qed.

Lemma keeps_alter_mtime t p m : keeps m (alter (set_mtime t) p m).
Proof.
  intros q n H. rewrite lookup_alter. case_decide as E.
  - subst q. rewrite H. simpl. eauto.
  - eauto.
Qed.

Lemma alter_None_iff (f : node → node) (p q : path) (m : gmap path node) :
  alter f p m !! q = None ↔ m !! q = None.
Proof.
  rewrite lookup_alter. case_decide as E; [subst q|done].
  destruct (m !! p); simpl; split; congruence.
Qed.

Lemma evolves_create new p k w :
  fs w !! p = None → new p k → evolves new (fs w) (fs (create p k w)).
Proof.
  intros Hp Hn. unfold create; simpl. split.
  - intros q n H. destruct (decide (p = q)) as [->|E]; [congruence|].
    rewrite lookup_insert_ne by done. by apply keeps_alter_mtime.
  - intros q n' H' H. destruct (decide (p = q)) as [->|E].
    + rewrite lookup_insert_eq in H'. injection H' as <-. simpl. auto.
    + rewrite lookup_insert_ne in H' by done.
      pose proof (proj2 (alter_None_iff (set_mtime (clock w)) (parent p) q _) H).
      congruence.
Qed.

Lemma evolves_stamp new p w : evolves new (fs w) (fs (stamp p w)).
Proof.
  unfold stamp; simpl. split; [apply keeps_alter_mtime|].
  intros q n' H' H.
  pose proof (proj2 (alter_None_iff (set_mtime (clock w)) p q _) H). congruence.
Qed.

(** ** System calls and pathlib methods *)

Lemma same_env_refl w : same_env w w.
Proof. by split. Qed.

Lemma same_env_trans w1 w2 w3 : same_env w1 w2 → same_env w2 w3 → same_env w1 w3.
Proof. intros [] []. split; congruence. Qed.

Create HintDb fsdb.
#[local] Hint Resolve keeps_refl evolves_refl same_env_refl : fsdb.

Lemma walk_create_dir c q w :
  walk (fs w) q = None → fs w !! (c :: q) = None →
  walk (fs (create (c :: q) Dir w)) (c :: q) = None.
Proof.
  intros Hq Hp. apply walk_cons. split.
  - eapply keeps_walk; [|exact Hq].
    apply (evolves_create (new_dir (c :: q))); [done | by split].
  - apply check_None. eexists. unfold create; simpl.
    rewrite lookup_insert_eq. split; reflexivity.
Qed.

Lemma os_mkdir_spec p w :
  match os_mkdir p w with
  | Ret _ w' =>
      ∃ c q, p = c :: q ∧ walk (fs w) q = None ∧ fs w !! p = None ∧
             writable_at (fs w) q = true ∧ w' = create p Dir w
  | Raise e w' =>
      w' = w ∧
      match e with
      | FileNotFoundError => walk_parent (fs w) p = Some FileNotFoundError ∨ p = []
      | FileExistsError => walk_parent (fs w) p = None ∧ is_Some (fs w !! p)
      | PermissionError =>
          walk_parent (fs w) p = None ∧ fs w !! p = None ∧
          writable_at (fs w) (parent p) = false
      | NotADirectoryError => walk (fs w) (parent p) = Some NotADirectoryError
      | IsADirectoryError | OSError => False
      end
  | Exit _ _ => False
  end.
Proof.
  unfold os_mkdir. destruct p as [|c q].
  - destruct (walk (fs w) []) as [e|] eqn:E.
    + destruct (walk_error _ _ _ E) as [-> | ->]; auto.
    + split; [done|]. simpl. split; [done|]. apply walk_lookup in E as (n & -> & _). eauto.
  - destruct (walk (fs w) q) as [e|] eqn:E.
    + destruct (walk_error _ _ _ E) as [-> | ->]; simpl; auto.
    + destruct (fs w !! (c :: q)) eqn:L; simpl.
      * split; [done|]. rewrite E. eauto.
      * destruct (writable_at (fs w) q) eqn:W; [|by rewrite E].
        exists c, q. auto.
Qed.

Lemma mkdir_exists_spec p ok e w :
  match mkdir_exists p ok e w with
  | Ret _ w' => w' = w ∧ walk (fs w) p = None
  | Raise e' w' => w' = w ∧ e' = e
  | Exit _ _ => False
  end.
Proof.
  unfold mkdir_exists, is_dir. destruct ok; simpl; [|done].
  destruct (walk (fs w) p); simpl; done.
Qed.

Lemma mkdir_flat_spec p ok w :
  match mkdir_flat p ok w with
  | Ret _ w' =>
      walk (fs w') p = None ∧ evolves (new_dir p) (fs w) (fs w') ∧ same_env w w'
  | Raise _ w' => w' = w
  | Exit _ _ => False
  end.
Proof.
  unfold mkdir_flat, try_except. pose proof (os_mkdir_spec p w) as H.
  destruct (os_mkdir p w) as [[] w'|e w'|]; [| |done].
  - destruct H as (c & q & -> & Hq & Hp & _ & ->). split; [|split].
    + by apply walk_create_dir.
    + apply evolves_create; [done | by split].
    + by split.
  - destruct H as [-> _].
    assert (He : match mkdir_exists p ok e w with
                 | Ret _ w' =>
                     walk (fs w') p = None ∧ evolves (new_dir p) (fs w) (fs w') ∧
                     same_env w w'
                 | Raise _ w' => w' = w
                 | Exit _ _ => False
                 end).
    { pose proof (mkdir_exists_spec p ok e w) as H.
      destruct (mkdir_exists p ok e w) as [[] w'|e' w'|]; [| tauto | done].
      destruct H as [-> H]. split; [done|]. split; [apply evolves_refl | apply same_env_refl]. }
    destruct e; try exact He. reflexivity.
Qed.

Lemma new_dir_dirs p q : ∀ s k, new_dir p s k → new_dirs (q ++ p) s k.
Proof. intros s k [-> ->]. split; [by apply suffix_app_r | done]. Qed.

Lemma new_dirs_mono p q : ∀ s k, new_dirs p s k → new_dirs (q ++ p) s k.
Proof. intros s k [H ->]. split; [by apply suffix_app_r | done]. Qed.

Lemma mkdir_parents_spec p ok w :
  match mkdir_parents p ok w with
  | Ret _ w' =>
      walk (fs w') p = None ∧ evolves (new_dirs p) (fs w) (fs w') ∧ same_env w w'
  | Raise _ w' => evolves (new_dirs p) (fs w) (fs w') ∧ same_env w w'
  | Exit _ _ => False
  end.
Proof.
  revert ok w. induction p as [|c q IH]; intros ok w.
  - simpl. unfold try_except. pose proof (os_mkdir_spec [] w) as H.
    destruct (os_mkdir [] w) as [[] w'|e w'|]; [| |done].
    { destruct H as (c & q & [=] & _). }
    destruct H as [-> _].
    pose proof (mkdir_exists_spec [] ok e w) as H.
    assert (He : match mkdir_exists [] ok e w with
                 | Ret _ w' =>
                     walk (fs w') [] = None ∧ evolves (new_dirs []) (fs w) (fs w') ∧
                     same_env w w'
                 | Raise _ w' => evolves (new_dirs []) (fs w) (fs w') ∧ same_env w w'
                 | Exit _ _ => False
                 end).
    { destruct (mkdir_exists [] ok e w) as [[] w'|e' w'|]; [| |done];
        destruct H as [-> H]; auto 6 with fsdb. }
    destruct e; try exact He.
    unfold raise. split; [apply evolves_refl | apply same_env_refl].
  - simpl. unfold try_except. pose proof (os_mkdir_spec (c :: q) w) as H.
    destruct (os_mkdir (c :: q) w) as [[] w'|e w'|]; [| |done].
    { destruct H as (c' & q' & [= <- <-] & Hq & Hp & _ & ->). split; [|split].
      - by apply walk_create_dir.
      - apply evolves_create; [done|]. split; [done | done].
      - by split. }
    destruct H as [-> _].
    assert (He : match mkdir_exists (c :: q) ok e w with
                 | Ret _ w' =>
                     walk (fs w') (c :: q) = None ∧
                     evolves (new_dirs (c :: q)) (fs w) (fs w') ∧ same_env w w'
                 | Raise _ w' =>
                     evolves (new_dirs (c :: q)) (fs w) (fs w') ∧ same_env w w'
                 | Exit _ _ => False
                 end).
    { pose proof (mkdir_exists_spec (c :: q) ok e w) as H.
      destruct (mkdir_exists (c :: q) ok e w) as [[] w'|e' w'|]; [| |done];
        destruct H as [-> H]; auto 6 with fsdb. }
    destruct e; try exact He. clear He.
    unfold bind. specialize (IH true w).
    destruct (mkdir_parents q true w) as [[] w1|e1 w1|]; [| |done].
    + destruct IH as (Hq & E1 & S1).
      pose proof (mkdir_flat_spec (c :: q) ok w1) as H.
      apply (evolves_weaken _ (new_dirs (c :: q))) in E1;
        [|apply (new_dirs_mono q [c])].
      destruct (mkdir_flat (c :: q) ok w1) as [[] w2|e2 w2|]; [| |done].
      * destruct H as (Hp & E2 & S2). split; [done|]. split.
        -- eapply evolves_trans; [exact E1|].
           eapply evolves_weaken; [|exact E2]. apply (new_dir_dirs (c :: q) []).
        -- eapply same_env_trans; eauto.
      * subst w2. auto.
    + destruct IH as [E1 S1]. split; [|done].
      eapply evolves_weaken; [|exact E1]. apply (new_dirs_mono q [c]).
Qed.

Lemma os_utime_spec p w :
  match os_utime p w with
  | Ret _ w' =>
      w' = stamp p w ∧ walk_parent (fs w) p = None ∧
      ∃ n, fs w !! p = Some n ∧ writable n = true
  | Raise _ w' => w' = w
  | Exit _ _ => False
  end.
Proof.
  unfold os_utime. destruct (walk_parent (fs w) p); [done|].
  destruct (fs w !! p) as [n|]; [|done].
  destruct (writable n) eqn:W; [|done]. eauto.
Qed.

Lemma os_open_spec trunc p w :
  match os_open trunc p w with
  | Ret f w' =>
      f = p ∧ walk_parent (fs w) p = None ∧
      match fs w !! p with
      | None => writable_at (fs w) (parent p) = true ∧
                w' = create p (File EmptyString) w
      | Some n => is_Dir n = false ∧ writable n = true ∧
                  w' = (if trunc then truncate p w else w)
      end
  | Raise _ w' => w' = w
  | Exit _ _ => False
  end.
Proof.
  unfold os_open. destruct (walk_parent (fs w) p); [done|].
  destruct (fs w !! p) as [n|].
  - destruct (is_Dir n); [done|]. destruct (writable n); done.
  - destruct p as [|c q]; [done|]. simpl.
    destruct (writable_at (fs w) q); done.
Qed.

Lemma touch_spec p w :
  match touch p w with
  | Ret _ w' =>
      evolves (new_file p) (fs w) (fs w') ∧ same_env w w' ∧
      ∃ n, fs w' !! p = Some n ∧ writable n = true
  | Raise _ w' => w' = w
  | Exit _ _ => False
  end.
Proof.
  unfold touch, try_except. pose proof (os_utime_spec p w) as H.
  destruct (os_utime p w) as [[] w'|e w'|]; [| |done].
  - destruct H as (-> & _ & n & Hn & W). split; [apply evolves_stamp|].
    split; [by split|]. exists (set_mtime (clock w) n). split; [|done].
    unfold stamp; simpl. by rewrite lookup_alter_eq, Hn.
  - subst w'. unfold bind, os_close, ret.
    pose proof (os_open_spec false p w) as H.
    destruct (os_open false p w) as [f w'|e' w'|]; [| |done]; [|done].
    destruct H as (-> & _ & H). destruct (fs w !! p) as [n|] eqn:L.
    + destruct H as (_ & W & ->). split; [apply evolves_refl|].
      split; [apply same_env_refl | eauto].
    + destruct H as (_ & ->). split; [apply evolves_create; [done | by split]|].
      split; [by split|]. eexists. unfold create; simpl.
      rewrite lookup_insert_eq. split; reflexivity.
Qed.

(** ** The loop of [initialize_directories] *)

Lemma marker_cons d : marker d = ".gitkeep" :: d.
Proof. reflexivity. Qed.

Lemma keeps_has_marker m m' d : keeps m m' → has_marker m d → has_marker m' d.
Proof.
  intros K (n & H & W). destruct (K _ _ H) as (n' & H' & _ & W').
  exists n'. split; congruence.
Qed.

Lemma folder_body_spec d w :
  match folder_body d w with
  | Ret _ w' =>
      walk (fs w') d = None ∧ has_marker (fs w') d ∧
      evolves (new_folder d) (fs w) (fs w') ∧
      cwd w' = cwd w ∧ log w' = (log w ++ [(INFO, MsgCreated d)])%list
  | Raise _ w' => evolves (new_folder d) (fs w) (fs w') ∧ same_env w w'
  | Exit _ _ => False
  end.
Proof.
  unfold folder_body, bind. pose proof (mkdir_parents_spec d true w) as H.
  destruct (mkdir_parents d true w) as [[] w1|e w1|]; [| |done].
  - destruct H as (Hd & E1 & [Cw1 L1]).
    apply (evolves_weaken _ (new_folder d)) in E1; [|by left].
    pose proof (touch_spec (d // ".gitkeep") w1) as H.
    destruct (touch (d // ".gitkeep") w1) as [[] w2|e w2|]; [| |done].
    + destruct H as (E2 & [Cw2 L2] & Hm).
      apply (evolves_weaken _ (new_folder d)) in E2; [|by right].
      unfold logger_info; simpl. split; [|split; [|split; [|split]]].
      * eapply keeps_walk; [apply E2 | done].
      * exact Hm.
      * eapply evolves_trans; eauto.
      * congruence.
      * congruence.
    + subst w2. split; [done | by split].
  - destruct H as [E S]. split; [|done]. eapply evolves_weaken; [|exact E]. by left.
Qed.

Lemma make_folder_spec root f w :
  match make_folder root f w with
  | Ret _ w' => folder_body (root // f) w = Ret tt w'
  | Exit c w' =>
      ∃ e w1, folder_body (root // f) w = Raise e w1 ∧
              c = 1%Z ∧ w' = emit ERROR (MsgFailed (root // f) e) w1
  | Raise _ _ => False
  end.
Proof.
  unfold make_folder, try_except. pose proof (folder_body_spec (root // f) w) as H.
  destruct (folder_body (root // f) w) as [[] w'|e w'|]; [done| |done].
  simpl. eauto.
Qed.

Lemma for_each_app {A} (l1 l2 : list A) body w :
  for_each (l1 ++ l2) body w = (for_each l1 body ;; for_each l2 body) w.
Proof.
  revert w. induction l1 as [|x l1 IH]; intros w; simpl; [done|].
  unfold bind in *. destruct (body x w); [apply IH | done | done].
Qed.

Lemma new_tree_head root f l q k : new_folder (root // f) q k → new_tree root (f :: l) q k.
Proof. intros H. exists f. split; [left | done]. Qed.

Lemma new_tree_tail root f l q k : new_tree root l q k → new_tree root (f :: l) q k.
Proof. intros (g & Hg & H). exists g. split; [by right | done]. Qed.

Lemma for_each_spec root l w :
  match for_each l (make_folder root) w with
  | Ret _ w' =>
      evolves (new_tree root l) (fs w) (fs w') ∧ cwd w' = cwd w ∧
      ∀ f, f ∈ l → walk (fs w') (root // f) = None ∧ has_marker (fs w') (root // f)
  | Exit c w' =>
      c = 1%Z ∧ evolves (new_tree root l) (fs w) (fs w') ∧ cwd w' = cwd w
  | Raise _ _ => False
  end.
Proof.
  revert w. induction l as [|f l IH]; intros w; simpl.
  - split; [apply evolves_refl|]. split; [done|]. intros f Hf. inversion Hf.
  - unfold bind. pose proof (make_folder_spec root f w) as H.
    pose proof (folder_body_spec (root // f) w) as B.
    destruct (make_folder root f w) as [[] w1|e w1|c w1]; [| done |].
    + rewrite H in B. destruct B as (Hd & Hm & E1 & Cw1 & _).
      apply (evolves_weaken _ (new_tree root (f :: l))) in E1;
        [|apply new_tree_head].
      specialize (IH w1).
      destruct (for_each l (make_folder root) w1) as [[] w2|e w2|c w2]; [| done |].
      * destruct IH as (E2 & Cw2 & Hl).
        apply (evolves_weaken _ (new_tree root (f :: l))) in E2;
          [|apply new_tree_tail].
        split; [eapply evolves_trans; eauto|]. split; [congruence|].
        intros g Hg. apply elem_of_cons in Hg as [-> | Hg]; [|by apply Hl].
        split; [eapply keeps_walk; [apply E2 | done]|].
        eapply keeps_has_marker; [apply E2 | done].
      * destruct IH as (-> & E2 & Cw2).
        apply (evolves_weaken _ (new_tree root (f :: l))) in E2;
          [|apply new_tree_tail].
        split; [done|]. split; [eapply evolves_trans; eauto | congruence].
    + destruct H as (e & w2 & Hb & -> & ->). rewrite Hb in B. destruct B as [E [C _]].
      split; [done|]. split; [|done]. simpl.
      eapply evolves_weaken; [|exact E]. apply new_tree_head.
Qed.

(** ** Names used by the script *)

Lemma reserved_names :
  Forall (fun folder => (".gitkeep" ∉ parts folder) ∧
                        ("device_config.txt" ∉ parts folder))
         PROJECT_STRUCTURE.
Proof. apply (bool_decide_unpack _). vm_compute. reflexivity. Qed.

Lemma suffix_below (c : string) (r1 r2 root : path) :
  (c :: r1 ++ root) `suffix_of` (r2 ++ root) → c ∈ r2.
Proof.
  intros [k Hk]. replace (k ++ c :: r1 ++ root) with ((k ++ c :: r1) ++ root) in Hk
    by (by rewrite <- app_assoc).
  apply app_inv_tail in Hk. subst r2. apply elem_of_app. right. by left.
Qed.

(** An entry called [.gitkeep] that the loop adds below a listed directory
    is an empty regular file. *)
Lemma new_tree_marker root d k :
  new_tree root PROJECT_STRUCTURE (".gitkeep" :: d ++ root) k → k = File EmptyString.
Proof.
  intros (g & Hg & [[Hs _] | [_ ->]]); [|done].
  apply suffix_below, list_elem_of_In, in_rev, list_elem_of_In in Hs.
  pose proof reserved_names as R. rewrite Forall_forall in R.
  destruct (R g Hg) as [N _]. done.
Qed.

(** The [.gitkeep] of a listed directory after a run that completes. *)
Lemma marker_after_run root w w' folder :
  initialize_directories root w = Ret tt w' →
  folder ∈ PROJECT_STRUCTURE →
  ∃ n, fs w' !! marker (root // folder) = Some n ∧
       match fs w !! marker (root // folder) with
       | None => nkind n = File EmptyString
       | Some n0 => nkind n = nkind n0
       end.
Proof.
  intros Hrun Hf. unfold initialize_directories in Hrun.
  pose proof (for_each_spec root PROJECT_STRUCTURE w) as H. rewrite Hrun in H.
  destruct H as ([K A] & _ & Hl). destruct (Hl folder Hf) as [_ (n & Hn & _)].
  exists n. split; [done|].
  destruct (fs w !! marker (root // folder)) as [n0|] eqn:H0.
  - destruct (K _ _ H0) as (n' & Hn' & Kk & _). congruence.
  - destruct (A _ _ Hn H0) as [_ N]. by apply new_tree_marker in N.
Qed.

(** * The directory initializer *)

(** C1, as stated, fails: when a directory called [.gitkeep] already sits in
    a listed directory, [touch] only refreshes its timestamp, the run
    completes without error, and the marker of that directory is a
    directory, not a file. *)
Lemma marker_may_be_a_directory :
  let r := initialize_directories ["proj"] w_marker_is_dir in
  "logs" ∈ PROJECT_STRUCTURE ∧ is_Ret r = true ∧
  nkind <$> fs (final r) !! marker (["proj"] // "logs") = Some Dir.
Proof.
  split; [apply in_project_structure; vm_compute; reflexivity|].
  vm_compute. split; reflexivity.
Qed.

(** C1 (amended): after a run of the initializer that completes without
    error, every path of [PROJECT_STRUCTURE] resolves to a directory, all its
    parents included, and holds an entry [.gitkeep]: an empty regular file
    when no entry of that name was there before the run, and otherwise the
    entry that was there, of the kind it had. *)
Theorem initialize_directories_creates root w w' folder :
  initialize_directories root w = Ret tt w' →
  folder ∈ PROJECT_STRUCTURE →
  is_dir (root // folder) w' = true ∧
  ∃ n, fs w' !! marker (root // folder) = Some n ∧
       match fs w !! marker (root // folder) with
       | None => nkind n = File EmptyString
       | Some n0 => nkind n = nkind n0
       end.
Proof.
  intros Hrun Hf. split; [|by apply marker_after_run].
  unfold initialize_directories in Hrun.
  pose proof (for_each_spec root PROJECT_STRUCTURE w) as H. rewrite Hrun in H.
  destruct H as (_ & _ & Hl). destruct (Hl folder Hf) as [Hd _].
  unfold is_dir. by rewrite Hd.
Qed.

Lemma initialize_directories_creates_witness :
  is_dir (["proj"] // "logs")
         (final (initialize_directories ["proj"] w_empty_project)) = true ∧
  ∃ n, fs (final (initialize_directories ["proj"] w_empty_project))
         !! marker (["proj"] // "logs") = Some n ∧
       nkind n = File EmptyString.
Proof.
  refine (initialize_directories_creates ["proj"] w_empty_project _ "logs" _ _).
  - apply is_Ret_final. vm_compute. reflexivity.
  - apply in_project_structure. vm_compute. reflexivity.
Defined.

(** C7, as stated, fails: [touch] does not truncate, so a [.gitkeep] that
    already had content keeps it. *)
Lemma marker_keeps_content :
  let r := initialize_directories ["proj"] w_marker_has_content in
  "logs" ∈ PROJECT_STRUCTURE ∧ is_Ret r = true ∧
  nkind <$> fs (final r) !! marker (["proj"] // "logs") = Some (File "keep me").
Proof.
  split; [apply in_project_structure; vm_compute; reflexivity|].
  vm_compute. split; reflexivity.
Qed.

(** C7 (amended): after a run of the initializer that completes, the
    [.gitkeep] of every listed directory is an empty regular file when no
    entry of that name existed before the run; an entry that existed keeps
    its kind and content. *)
Theorem marker_empty_when_created root w w' folder :
  initialize_directories root w = Ret tt w' →
  folder ∈ PROJECT_STRUCTURE →
  ∃ n, fs w' !! marker (root // folder) = Some n ∧
       match fs w !! marker (root // folder) with
       | None => nkind n = File EmptyString
       | Some n0 => nkind n = nkind n0
       end.
Proof. apply marker_after_run. Qed.

Lemma marker_empty_when_created_witness :
  ∃ n, fs (final (initialize_directories ["proj"] w_marker_has_content))
         !! marker (["proj"] // "logs") = Some n ∧
       nkind n = File "keep me".
Proof.
  refine (marker_empty_when_created ["proj"] w_marker_has_content _ "logs" _ _).
  - apply is_Ret_final. vm_compute. reflexivity.
  - apply in_project_structure. vm_compute. reflexivity.
Defined.

(** ** Failure of one folder *)

(** C3: when the [try] block of a folder raises, reached after the folders
    before it went through, the initializer logs an error that names this
    folder and the exception and exits with status 1 in the state the
    failure left, so that no later folder is touched and no further line is
    logged; the entry point then ends with that same exit, hence with a
    status other than 0 as soon as one folder fails. *)
Theorem initialize_directories_aborts root w done folder rest w1 e w2 :
  PROJECT_STRUCTURE = done ++ folder :: rest →
  for_each done (make_folder root) w = Ret tt w1 →
  folder_body (root // folder) w1 = Raise e w2 →
  let w_end := emit ERROR (MsgFailed (root // folder) e) w2 in
  initialize_directories root w = Exit 1 w_end ∧
  fs w_end = fs w2 ∧
  log w_end = log w1 ++ [(ERROR, MsgFailed (root // folder) e)] ∧
  ∀ rt w0, w = emit INFO MsgStart w0 → root = cwd w0 →
           main rt w0 = Exit 1 w_end ∧ exit_status (main rt w0) ≠ 0%Z.
Proof.
  intros HS Hdone Hbody w_end.
  assert (Hinit : initialize_directories root w = Exit 1 w_end).
  { unfold initialize_directories. rewrite HS, for_each_app. unfold bind.
    rewrite Hdone. simpl. unfold bind, make_folder, try_except.
    rewrite Hbody. reflexivity. }
  split; [exact Hinit|]. split; [reflexivity|]. split.
  - pose proof (folder_body_spec (root // folder) w1) as H. rewrite Hbody in H.
    destruct H as [_ [_ L]]. subst w_end. simpl. by rewrite L.
  - intros rt w0 -> ->.
    assert (Hmain : main rt w0 = Exit 1 w_end).
    { unfold main, bind, logger_info, os_getcwd.
      change (cwd (emit INFO MsgStart w0)) with (cwd w0). by rewrite Hinit. }
    split; [exact Hmain|]. by rewrite Hmain.
Qed.

Lemma initialize_directories_aborts_witness :
  initialize_directories ["proj"] w_data_is_a_file =
  Exit 1 (emit ERROR (MsgFailed (["proj"] // "data/raw/images") NotADirectoryError)
               w_data_is_a_file).
Proof.
  refine (proj1 (initialize_directories_aborts ["proj"] w_data_is_a_file
                   [] "data/raw/images" (tail PROJECT_STRUCTURE)
                   w_data_is_a_file NotADirectoryError w_data_is_a_file _ _ _)).
  - reflexivity.
  - reflexivity.
  - vm_compute. reflexivity.
Defined.

(** When the initializer returns, every folder of the list went through
    its [try] block. *)
Lemma initialize_directories_returns root w w' :
  initialize_directories root w = Ret tt w' →
  ∀ done folder rest,
    PROJECT_STRUCTURE = done ++ folder :: rest →
    ∃ w1 w2, for_each done (make_folder root) w = Ret tt w1 ∧
             folder_body (root // folder) w1 = Ret tt w2.
Proof.
  unfold initialize_directories. intros Hrun done folder rest HS.
  rewrite HS, for_each_app in Hrun. unfold bind in Hrun.
  destruct (for_each done (make_folder root) w) as [[] w1|e1 w1|c1 w1];
    [|discriminate|discriminate].
  simpl in Hrun. unfold bind in Hrun.
  pose proof (make_folder_spec root folder w1) as H.
  destruct (make_folder root folder w1) as [[] w2|e2 w2|c2 w2];
    [|discriminate|discriminate].
  eauto.
Qed.

(** The initializer never ends by an uncaught exception nor by an exit
    with status 0. *)
Lemma initialize_directories_outcome root w :
  match initialize_directories root w with
  | Ret _ _ => True
  | Exit c _ => c = 1%Z
  | Raise _ _ => False
  end.
Proof.
  pose proof (for_each_spec root PROJECT_STRUCTURE w) as H.
  unfold initialize_directories.
  destruct (for_each PROJECT_STRUCTURE (make_folder root) w); tauto.
Qed.

(** ** Running the initializer on an initialized tree *)

Lemma same_tree_refl S m : same_tree S m m.
Proof. intros p. destruct (m !! p); [repeat split; done | done]. Qed.

Lemma same_tree_trans S m1 m2 m3 :
  same_tree S m1 m2 → same_tree S m2 m3 → same_tree S m1 m3.
Proof.
  intros H12 H23 p. specialize (H12 p). specialize (H23 p).
  destruct (m1 !! p) as [n1|], (m2 !! p) as [n2|], (m3 !! p) as [n3|]; try done.
  destruct H12 as (K1 & W1 & T1), H23 as (K2 & W2 & T2).
  split; [congruence|]. split; [congruence|]. intros Hne.
  destruct (decide (mtime n2 = mtime n1)) as [E|E]; [|auto].
  apply T2. congruence.
Qed.

Lemma same_tree_keeps S m m' : same_tree S m m' → keeps m m'.
Proof.
  intros H p n Hp. specialize (H p). rewrite Hp in H.
  destruct (m' !! p) as [n'|]; [|done]. exists n'. tauto.
Qed.

Lemma same_tree_stamp (S : path → Prop) p w :
  S p → same_tree S (fs w) (fs (stamp p w)).
Proof.
  intros HS q. unfold stamp; simpl. rewrite lookup_alter. case_decide as E.
  - subst q. destruct (fs w !! p) as [n|]; simpl; [|done]. auto.
  - destruct (fs w !! q); [repeat split; done | done].
Qed.

Lemma initialized_keeps root l m m' :
  keeps m m' → initialized root l m → initialized root l m'.
Proof.
  intros K H f Hf. destruct (H f Hf) as [Hd Hm]. split.
  - by eapply keeps_walk.
  - by eapply keeps_has_marker.
Qed.

(** On a directory that resolves, [mkdir(parents=True, exist_ok=True)]
    changes nothing. *)
Lemma mkdir_parents_existing p w :
  walk (fs w) p = None → mkdir_parents p true w = Ret tt w.
Proof.
  intros Hp.
  assert (Hos : os_mkdir p w = Raise FileExistsError w).
  { unfold os_mkdir. destruct p as [|c q]; [by rewrite Hp|].
    apply walk_cons in Hp as [Hq Hc]. rewrite Hq.
    apply check_None in Hc as (n & -> & _). done. }
  assert (Hex : mkdir_exists p true FileExistsError w = Ret tt w).
  { unfold mkdir_exists, is_dir. by rewrite Hp. }
  destruct p; simpl; unfold try_except; by rewrite Hos.
Qed.

Lemma touch_existing d n w :
  walk (fs w) d = None → fs w !! marker d = Some n → writable n = true →
  touch (marker d) w = Ret tt (stamp (marker d) w).
Proof.
  intros Hd Hn W. unfold touch, try_except, os_utime.
  rewrite marker_cons in *. simpl. by rewrite Hd, Hn, W.
Qed.

Lemma folder_body_existing d w :
  walk (fs w) d = None → has_marker (fs w) d →
  folder_body d w = Ret tt (emit INFO (MsgCreated d) (stamp (marker d) w)).
Proof.
  intros Hd (n & Hn & W). unfold folder_body, bind.
  rewrite mkdir_parents_existing by done.
  fold (marker d). by rewrite (touch_existing d n).
Qed.

Lemma for_each_initialized root l0 l w :
  l ⊆ l0 → initialized root l (fs w) →
  ∃ w', for_each l (make_folder root) w = Ret tt w' ∧
        same_tree (is_marker root l0) (fs w) (fs w').
Proof.
  revert w. induction l as [|f l IH]; intros w Hsub Hi; simpl.
  - exists w. split; [done | apply same_tree_refl].
  - destruct (Hi f) as [Hd Hm]; [by left|].
    unfold bind, make_folder, try_except.
    rewrite folder_body_existing by done.
    set (w1 := emit INFO (MsgCreated (root // f)) (stamp (marker (root // f)) w)).
    assert (S1 : same_tree (is_marker root l0) (fs w) (fs w1)).
    { apply same_tree_stamp. exists f. split; [|done]. apply Hsub. by left. }
    destruct (IH w1) as (w' & Hrun & S2).
    + intros g Hg. apply Hsub. by right.
    + eapply initialized_keeps; [by eapply same_tree_keeps|].
      intros g Hg. apply Hi. by right.
    + exists w'. split; [done|]. eapply same_tree_trans; eauto.
Qed.

(** C4: on the tree a successful run of the initializer leaves, a second
    run succeeds as well and ends with exactly the same entries (same
    directories, same files, same contents and permissions); the only
    timestamps that may differ are those of the [.gitkeep] entries of the
    listed directories. *)
Theorem initialize_directories_idempotent root w w1 :
  initialize_directories root w = Ret tt w1 →
  ∃ w2, initialize_directories root w1 = Ret tt w2 ∧
        same_tree (is_marker root PROJECT_STRUCTURE) (fs w1) (fs w2).
Proof.
  intros Hrun. unfold initialize_directories in *.
  pose proof (for_each_spec root PROJECT_STRUCTURE w) as H. rewrite Hrun in H.
  destruct H as (_ & _ & Hi).
  by apply for_each_initialized.
Qed.

Lemma initialize_directories_idempotent_witness :
  ∃ w2, initialize_directories ["proj"]
          (final (initialize_directories ["proj"] w_empty_project)) = Ret tt w2 ∧
        same_tree (is_marker ["proj"] PROJECT_STRUCTURE)
          (fs (final (initialize_directories ["proj"] w_empty_project))) (fs w2).
Proof.
  apply (initialize_directories_idempotent ["proj"] w_empty_project).
  apply is_Ret_final. vm_compute. reflexivity.
Defined.

(** * The accelerator prober *)

(** The prober on any storage, one call after the other. *)
Lemma check_hardware_acceleration_on_unfold st rt w :
  check_hardware_acceleration_on st rt w =
  let w1 := emit (selection_line rt).1 (selection_line rt).2 w in
  match open_w "config/device_config.txt" w1 with
  | Ret f w2 =>
      match st with
      | Accepts => Ret (selected_device rt) (append f (selected_device rt) w2)
      | Refuses => Raise OSError w2
      end
  | Raise e w2 => Raise e w2
  | Exit c w2 => Exit c w2
  end.
Proof.
  unfold check_hardware_acceleration_on, selected_device, selection_line, bind,
    logger_info, logger_warning, ret, file_write, file_close.
  destruct (cuda_is_available rt); [|destruct (mps_is_available rt)];
    simpl; match goal with |- context [open_w ?p ?w] => destruct (open_w p w) end;
    destruct st; reflexivity.
Qed.

Lemma check_hardware_acceleration_unfold rt w :
  check_hardware_acceleration rt w =
  let w1 := emit (selection_line rt).1 (selection_line rt).2 w in
  match open_w "config/device_config.txt" w1 with
  | Ret f w2 => Ret (selected_device rt) (append f (selected_device rt) w2)
  | Raise e w2 => Raise e w2
  | Exit c w2 => Exit c w2
  end.
Proof.
  unfold check_hardware_acceleration.
  apply (check_hardware_acceleration_on_unfold Accepts).
Qed.

Lemma open_w_truncated name w f w2 :
  open_w name w = Ret f w2 →
  f = cwd w // name ∧
  ∃ n, fs w2 !! (cwd w // name) = Some n ∧ nkind n = File EmptyString.
Proof.
  intros H. set (p := cwd w // name).
  pose proof (os_open_spec true p w) as S. unfold open_w in H. fold p in H.
  rewrite H in S. destruct S as (-> & _ & S). split; [done|].
  destruct (fs w !! p) as [n|] eqn:L.
  - destruct S as (_ & _ & ->). unfold truncate; simpl.
    rewrite lookup_alter_eq, L. simpl. eauto.
  - destruct S as [_ ->]. unfold create; simpl. rewrite lookup_insert_eq. eauto.
Qed.

Lemma content_at_append p data w n :
  fs w !! p = Some n → nkind n = File EmptyString →
  content_at p (append p data w) = Some data.
Proof.
  intros L K. unfold content_at, append; simpl.
  rewrite lookup_alter_eq, L. simpl. by rewrite K.
Qed.

(** What a completed run of the prober returns and leaves in the file. *)
Lemma check_hardware_acceleration_spec rt w d w' :
  check_hardware_acceleration rt w = Ret d w' →
  d = selected_device rt ∧ content_at (config_file w) w' = Some d.
Proof.
  rewrite check_hardware_acceleration_unfold. simpl.
  destruct (open_w _ _) as [f w2|e w2|c w2] eqn:O; [|discriminate|discriminate].
  intros [= <- <-]. split; [done|].
  apply open_w_truncated in O as (-> & n & L & K).
  by eapply content_at_append.
Qed.

Lemma selected_device_valid rt : selected_device rt ∈ valid_tokens.
Proof.
  unfold selected_device, valid_tokens.
  destruct (cuda_is_available rt); [|destruct (mps_is_available rt)];
    apply (bool_decide_unpack _); vm_compute; reflexivity.
Qed.





(** C5, as stated, fails: in a working directory without a [config]
    directory [open] raises [FileNotFoundError], the run of the prober ends
    there, and no configuration file exists after it. *)
Lemma no_config_file_after_failed_run :
  let r := check_hardware_acceleration rt_cpu w_empty_project in
  is_Ret r = false ∧
  fs (final r) !! config_file w_empty_project = None.
Proof. vm_compute. split; reflexivity. Qed.

(** C5 (amended): after every run of the prober that completes, the
    configuration file holds exactly one of "cpu", "cuda" and "mps", with no
    other character before or after it. *)
Theorem config_file_holds_a_valid_token rt w d w' :
  check_hardware_acceleration rt w = Ret d w' →
  ∃ token, content_at (config_file w) w' = Some token ∧ token ∈ valid_tokens.
Proof.
  intros H. apply check_hardware_acceleration_spec in H as [-> C].
  exists (selected_device rt). split; [exact C | apply selected_device_valid].
Qed.

Lemma config_file_holds_a_valid_token_witness :
  ∃ token,
    content_at (config_file w_with_config)
               (final (check_hardware_acceleration rt_mps w_with_config)) = Some token ∧
    token ∈ valid_tokens.
Proof.
  refine (config_file_holds_a_valid_token rt_mps w_with_config "mps" _ _).
  apply is_Ret_device; vm_compute; split; reflexivity.
Defined.

(** Logging does not change what [open] finds. *)
Lemma open_w_emit name l msg w :
  open_w name (emit l msg w) =
  match open_w name w with
  | Ret f w' => Ret f (emit l msg w')
  | Raise e w' => Raise e (emit l msg w')
  | Exit c w' => Exit c (emit l msg w')
  end.
Proof.
  unfold open_w, os_open. change (fs (emit l msg w)) with (fs w).
  change (cwd (emit l msg w)) with (cwd w). set (p := cwd w // name).
  destruct (walk_parent (fs w) p); [done|].
  destruct (fs w !! p) as [n|].
  - destruct (is_Dir n); [done|]. destruct (writable n); done.
  - destruct p as [|c q]; [done|]. destruct (writable_at (fs w) q); done.
Qed.

Lemma completes_when_open rt w f w1 :
  open_w "config/device_config.txt" w = Ret f w1 →
  ∃ w', check_hardware_acceleration rt w = Ret (selected_device rt) w'.
Proof.
  intros O. rewrite check_hardware_acceleration_unfold. simpl.
  rewrite open_w_emit, O. eauto.
Qed.

(** Next to a configuration file it creates, the prober keeps every entry. *)
Lemma check_hardware_acceleration_keeps rt w d w' :
  check_hardware_acceleration rt w = Ret d w' →
  fs w !! config_file w = None → keeps (fs w) (fs w').
Proof.
  rewrite check_hardware_acceleration_unfold. simpl. set (w0 := emit _ _ w).
  pose proof (os_open_spec true (config_file w) w0) as S. unfold open_w.
  change (cwd w0 // "config/device_config.txt") with (config_file w).
  destruct (os_open true (config_file w) w0) as [f w2|e w2|c w2]; [|discriminate|discriminate].
  intros [= <- <-] L. destruct S as (-> & _ & S). change (fs w0) with (fs w) in S.
  rewrite L in S. destruct S as [_ ->].
  intros q n Hq. assert (config_file w ≠ q) by congruence.
  unfold append, create; simpl.
  rewrite lookup_alter_ne, lookup_insert_ne by done.
  by apply keeps_alter_mtime.
Qed.

(** C6, as stated, fails: the prober raises when the configuration file
    cannot be opened for writing, here because the working directory has no
    [config] directory; the exception is not caught and ends the process
    with status 1. *)
Lemma check_hardware_acceleration_may_raise :
  let r := check_hardware_acceleration rt_cpu w_empty_project in
  raised r = Some FileNotFoundError ∧ exit_status r = 1%Z.
Proof. vm_compute. split; reflexivity. Qed.

(** The prober on any storage in terms of the [open] of its start state. *)
Lemma check_hardware_acceleration_on_open st rt w :
  check_hardware_acceleration_on st rt w =
  let line := selection_line rt in
  match open_w "config/device_config.txt" w with
  | Ret f w2 =>
      match st with
      | Accepts =>
          Ret (selected_device rt)
              (append f (selected_device rt) (emit line.1 line.2 w2))
      | Refuses => Raise OSError (emit line.1 line.2 w2)
      end
  | Raise e w2 => Raise e (emit line.1 line.2 w2)
  | Exit c w2 => Exit c (emit line.1 line.2 w2)
  end.
Proof.
  rewrite check_hardware_acceleration_on_unfold. cbv zeta. rewrite open_w_emit.
  destruct (open_w "config/device_config.txt" w); reflexivity.
Qed.

Lemma open_w_no_exit name w c w' : open_w name w ≠ Exit c w'.
Proof.
  unfold open_w. pose proof (os_open_spec true (cwd w // name) w) as S.
  intros E. by rewrite E in S.
Qed.

(** C6 (amended): absence of acceleration hardware is never an error.
    Whatever the capability flags are, the prober completes normally and
    returns the selected class, "cpu" without CUDA and MPS, whenever
    [config/device_config.txt] can be opened for writing and the storage
    accepts the text; it never exits the process by itself; and when it
    fails, it is by the uncaught exception of that [open], or by the
    [OSError] of the write the storage refuses when the file is closed. *)
Theorem check_hardware_acceleration_completes st rt w :
  (∀ f w1, open_w "config/device_config.txt" w = Ret f w1 → st = Accepts →
           ∃ w', check_hardware_acceleration_on st rt w =
                 Ret (selected_device rt) w') ∧
  (∀ e w', check_hardware_acceleration_on st rt w = Raise e w' →
           (∃ w1, open_w "config/device_config.txt" w = Raise e w1) ∨
           st = Refuses ∧ e = OSError ∧
           ∃ f w1, open_w "config/device_config.txt" w = Ret f w1) ∧
  (∀ c w', check_hardware_acceleration_on st rt w ≠ Exit c w') ∧
  (cuda_is_available rt = false → mps_is_available rt = false →
   selected_device rt = "cpu").
Proof.
  rewrite check_hardware_acceleration_on_open. cbv zeta.
  split; [|split; [|split]].
  - intros f w1 -> ->. eauto.
  - intros e w'.
    destruct (open_w "config/device_config.txt" w) as [f w2|e2 w2|c2 w2] eqn:O.
    + destruct st; [discriminate|]. intros [= <- <-]. right. eauto.
    + intros [= <- <-]. left. eauto.
    + discriminate.
  - intros c w'.
    destruct (open_w "config/device_config.txt" w) as [f w2|e2 w2|c2 w2] eqn:O.
    + destruct st; discriminate.
    + discriminate.
    + by apply open_w_no_exit in O.
  - unfold selected_device. by intros -> ->.
Qed.

Lemma check_hardware_acceleration_completes_witness :
  ∃ w', check_hardware_acceleration_on Accepts rt_cpu w_with_config = Ret "cpu" w'.
Proof.
  refine (proj1 (check_hardware_acceleration_completes Accepts rt_cpu w_with_config)
            (config_file w_with_config)
            (truncate (config_file w_with_config) w_with_config) _ _).
  - vm_compute. reflexivity.
  - reflexivity.
Defined.

(** On a storage that accepts the text, the prober fails by the exception
    of [open] only. *)
Lemma check_hardware_acceleration_failure rt w :
  match check_hardware_acceleration rt w with
  | Ret _ _ => True
  | Raise e _ => ∃ w1, open_w "config/device_config.txt" w = Raise e w1
  | Exit _ _ => False
  end.
Proof.
  rewrite check_hardware_acceleration_unfold. simpl. rewrite open_w_emit.
  pose proof (os_open_spec true (config_file w) w) as S. unfold open_w.
  change (cwd w // "config/device_config.txt") with (config_file w).
  destruct (os_open true (config_file w) w) as [f w2|e w2|c w2]; [done| |done].
  eauto.
Qed.

(** C9: when the prober completes, the content of the configuration file is
    the very string it returns. *)
Theorem persisted_device_is_returned_device rt w d w' :
  check_hardware_acceleration rt w = Ret d w' →
  content_at (config_file w) w' = Some d.
Proof. intros H. by apply check_hardware_acceleration_spec in H as [_ C]. Qed.

Lemma persisted_device_is_returned_device_witness :
  content_at (config_file w_with_config)
             (final (check_hardware_acceleration rt_cpu w_with_config)) = Some "cpu".
Proof.
  refine (persisted_device_is_returned_device rt_cpu w_with_config "cpu" _ _).
  apply is_Ret_device; vm_compute; split; reflexivity.
Defined.

(** C10: two completed runs of the prober whose CUDA flags agree and whose
    MPS flags agree return the same token and leave the same content in
    their configuration files, whatever the device names, memory sizes,
    filesystems, clocks, working directories and logs of the two runs. *)
Theorem check_hardware_acceleration_deterministic rt1 rt2 w1 w2 d1 d2 w1' w2' :
  cuda_is_available rt1 = cuda_is_available rt2 →
  mps_is_available rt1 = mps_is_available rt2 →
  check_hardware_acceleration rt1 w1 = Ret d1 w1' →
  check_hardware_acceleration rt2 w2 = Ret d2 w2' →
  d1 = d2 ∧
  content_at (config_file w1) w1' = content_at (config_file w2) w2'.
Proof.
  intros Hc Hm H1 H2.
  apply check_hardware_acceleration_spec in H1 as [-> Hc1].
  apply check_hardware_acceleration_spec in H2 as [-> Hc2].
  assert (E : selected_device rt1 = selected_device rt2).
  { unfold selected_device. by rewrite Hc, Hm. }
  split; [exact E|]. rewrite Hc1, Hc2. by rewrite E.
Qed.

Lemma check_hardware_acceleration_deterministic_witness :
  content_at (config_file w_with_config)
             (final (check_hardware_acceleration rt_cuda w_with_config)) =
  content_at (config_file w_other_project)
             (final (check_hardware_acceleration
                       rt_cuda_t4 w_other_project)).
Proof.
  refine (proj2 (check_hardware_acceleration_deterministic
                   rt_cuda rt_cuda_t4
                   w_with_config w_other_project "cuda" "cuda" _ _ _ _ _ _)).
  - reflexivity.
  - reflexivity.
  - apply is_Ret_device; vm_compute; split; reflexivity.
  - apply is_Ret_device; vm_compute; split; reflexivity.
Defined.

(** * The entry point on an empty working directory *)

(** ** When [mkdir] and [touch] go through *)

Lemma walk_clear_way m p : walk m p = None → clear_way m p.
Proof.
  induction p as [|c q IH]; simpl; [done|].
  destruct (walk m q); [discriminate|]. intros Hc. split; [by apply IH|].
  apply check_None in Hc as (n & -> & D). exact D.
Qed.

Lemma clear_way_walk m p : clear_way m p → walk m p ≠ Some NotADirectoryError.
Proof.
  induction p as [|c q IH]; simpl.
  - intros ->. discriminate.
  - intros [Hq Hp]. destruct (walk m q) as [e|]; [by apply IH|].
    unfold check. destruct (m !! (c :: q)) as [n|]; [|discriminate].
    rewrite Hp. discriminate.
Qed.

Lemma mkdir_parents_clear_way p w :
  clear_way (fs w) p → ∃ w', mkdir_parents p true w = Ret tt w'.
Proof.
  revert w. induction p as [|c q IH]; intros w Hc.
  { exists w. by apply mkdir_parents_existing. }
  destruct Hc as [Hq Hp]. simpl. unfold try_except.
  pose proof (os_mkdir_spec (c :: q) w) as H.
  destruct (os_mkdir (c :: q) w) as [[] w'|e w'|]; [eauto| |done].
  destruct H as [-> He]. destruct e; simpl in He.
  - (* a component is missing: create the parent, then the directory *)
    unfold bind. destruct (IH w Hq) as [w1 H1]. rewrite H1.
    pose proof (mkdir_parents_spec q true w) as S. rewrite H1 in S.
    destruct S as (Hwq & [K A] & _).
    unfold mkdir_flat, try_except, os_mkdir. rewrite Hwq.
    destruct (fs w1 !! (c :: q)) as [n1|] eqn:L1.
    + unfold mkdir_exists, is_dir. simpl. rewrite Hwq. unfold check. rewrite L1.
      assert (D : is_Dir n1 = true).
      { destruct (fs w !! (c :: q)) as [n0|] eqn:L0.
        - by rewrite (keeps_is_Dir _ _ _ _ _ K L0 L1).
        - destruct (A _ _ L1 L0) as [_ [Hs _]].
          apply suffix_length in Hs. simpl in Hs. lia. }
      rewrite D. simpl. eauto.
    + assert (W : writable_at (fs w1) q = true).
      { unfold writable_at. apply walk_lookup in Hwq as (n1 & Ln1 & _). rewrite Ln1.
        destruct (fs w !! q) as [n0|] eqn:L0.
        - destruct (K _ _ L0) as (n1' & Ln1' & _ & W1).
          assert (n1' = n1) as -> by congruence. rewrite W1.
          destruct (fs w !! (c :: q)) as [n|] eqn:Lp; [|exact Hp].
          destruct (K _ _ Lp) as (n' & Ln' & _). congruence.
        - by destruct (A _ _ Ln1 L0). }
      rewrite W. eauto.
  - (* the directory is there already *)
    destruct He as [Hw [n Ln]]. rewrite Ln in Hp.
    unfold mkdir_exists, is_dir. simpl. rewrite Hw. unfold check. rewrite Ln, Hp.
    simpl. eauto.
  - by apply clear_way_walk in Hq.
  - done.
  - destruct He as (Hw & Ln & W). rewrite Ln in Hp.
    apply walk_lookup in Hw as (n & Lq & _). unfold writable_at in W.
    rewrite Lq in *. congruence.
  - done.
Qed.

Lemma touch_succeeds d w :
  walk (fs w) d = None →
  match fs w !! marker d with
  | Some n => writable n = true
  | None => writable_at (fs w) d = true
  end →
  ∃ w', touch (marker d) w = Ret tt w'.
Proof.
  intros Hd H. unfold touch, try_except, os_utime, bind, os_open, os_close, ret.
  rewrite marker_cons in *. simpl. rewrite Hd.
  destruct (fs w !! (".gitkeep" :: d)) as [n|] eqn:L.
  - rewrite H. eauto.
  - simpl. rewrite Hd, L, H. eauto.
Qed.

(** ** A run below a directory that starts empty *)

Lemma new_tree_below root c r k :
  new_tree root PROJECT_STRUCTURE (c :: r ++ root) k →
  (k = Dir ∧ ∃ g, g ∈ PROJECT_STRUCTURE ∧ c ∈ parts g) ∨
  (k = File EmptyString ∧ c = ".gitkeep").
Proof.
  intros (g & Hg & [[Hs ->] | [E ->]]).
  - left. split; [done|]. exists g. split; [done|].
    by apply suffix_below, list_elem_of_In, in_rev, list_elem_of_In in Hs.
  - right. split; [done|]. rewrite marker_cons in E. by injection E.
Qed.

Lemma not_reserved g c :
  g ∈ PROJECT_STRUCTURE → c ∈ parts g → c ≠ ".gitkeep" ∧ c ≠ "device_config.txt".
Proof.
  intros Hg Hc. pose proof reserved_names as R. rewrite Forall_forall in R.
  destruct (R g Hg) as [N1 N2]. split; intros ->; done.
Qed.

Section EmptyRoot.

Variable root : path.
Variable m0 : gmap path node.
Hypothesis Hempty : empty_directory m0 root.

Local Abbreviation reached := (reached_from root m0).

Lemma reached_root m : reached m → walk m root = None ∧ writable_at m root = true.
Proof.
  intros [K _]. destruct Hempty as (Hw & Hr & _). split.
  - by eapply keeps_walk.
  - by eapply keeps_writable_at.
Qed.

Lemma reached_below m r n :
  reached m → r ≠ [] → m !! (r ++ root) = Some n →
  writable n = true ∧ new_tree root PROJECT_STRUCTURE (r ++ root) (nkind n).
Proof.
  intros [_ A] Hr Hn. destruct Hempty as (_ & _ & He). by apply A; [|apply He].
Qed.

Lemma reached_clear_way m f r :
  reached m → f ∈ PROJECT_STRUCTURE → r `suffix_of` rev (parts f) →
  clear_way m (r ++ root).
Proof.
  intros Hm Hf. induction r as [|c r IH]; intros Hs.
  { apply walk_clear_way. by apply reached_root. }
  simpl. split; [apply IH; by eapply suffix_cons_l|].
  destruct (m !! (c :: r ++ root)) as [n|] eqn:L.
  - destruct (reached_below m (c :: r) n Hm) as [_ N]; [done | done|].
    apply new_tree_below in N as [[K _] | [_ ->]].
    + unfold is_Dir. by rewrite K.
    + destruct Hs as [k Hk].
      assert (Hin : ".gitkeep" ∈ parts f).
      { apply list_elem_of_In, in_rev, list_elem_of_In. rewrite Hk.
        apply elem_of_app. right. by left. }
      by destruct (not_reserved f ".gitkeep" Hf Hin).
  - destruct (m !! (r ++ root)) as [n|] eqn:Lr; [|done].
    destruct r as [|c' r'].
    + destruct (reached_root m Hm) as [_ W]. unfold writable_at in W.
      simpl in Lr. by rewrite Lr in W.
    + by destruct (reached_below m (c' :: r') n Hm).
Qed.

Lemma reached_folder_body f w w' :
  reached (fs w) → f ∈ PROJECT_STRUCTURE →
  folder_body (root // f) w = Ret tt w' → reached (fs w').
Proof.
  intros Hm Hf Hb. pose proof (folder_body_spec (root // f) w) as S.
  rewrite Hb in S. destruct S as (_ & _ & E & _).
  eapply evolves_trans; [exact Hm|].
  eapply evolves_weaken; [|exact E]. intros q k N. by exists f.
Qed.

Lemma folder_body_fresh f w :
  reached (fs w) → f ∈ PROJECT_STRUCTURE →
  ∃ w', folder_body (root // f) w = Ret tt w'.
Proof.
  intros Hm Hf. unfold folder_body, bind.
  destruct (mkdir_parents_clear_way (root // f) w) as [w1 H1].
  { by apply (reached_clear_way _ f). }
  rewrite H1. pose proof (mkdir_parents_spec (root // f) true w) as S.
  rewrite H1 in S. destruct S as (Hd & E & _).
  assert (Hm1 : reached (fs w1)).
  { eapply evolves_trans; [exact Hm|].
    eapply evolves_weaken; [|exact E]. intros q k N. exists f. split; [done | by left]. }
  fold (marker (root // f)).
  destruct (touch_succeeds (root // f) w1 Hd) as [w2 H2].
  { rewrite marker_cons. unfold joinpath in *.
    destruct (fs w1 !! (".gitkeep" :: rev (parts f) ++ root)) as [n|] eqn:L.
    - by destruct (reached_below (fs w1) (".gitkeep" :: rev (parts f)) n Hm1).
    - apply walk_lookup in Hd as (n & Ln & _). unfold writable_at. rewrite Ln.
      destruct (rev (parts f)) as [|c r] eqn:Er.
      + destruct (reached_root _ Hm1) as [_ W]. unfold writable_at in W.
        simpl in Ln. by rewrite Ln in W.
      + by destruct (reached_below (fs w1) (c :: r) n Hm1). }
  rewrite H2. unfold logger_info. eauto.
Qed.

Lemma for_each_fresh l w :
  l ⊆ PROJECT_STRUCTURE → reached (fs w) →
  ∃ w', for_each l (make_folder root) w = Ret tt w'.
Proof.
  revert w. induction l as [|f l IH]; intros w Hsub Hm; simpl; [by exists w|].
  assert (Hf : f ∈ PROJECT_STRUCTURE) by (apply Hsub; by left).
  destruct (folder_body_fresh f w Hm Hf) as [w1 H1].
  unfold bind, make_folder, try_except. rewrite H1.
  apply IH.
  - intros g Hg. apply Hsub. by right.
  - by eapply reached_folder_body.
Qed.

End EmptyRoot.

Lemma project_structure_distinct : NoDup PROJECT_STRUCTURE.
Proof. apply (bool_decide_unpack _). vm_compute. reflexivity. Qed.

Lemma os_open_creates trunc c q w :
  walk (fs w) q = None → fs w !! (c :: q) = None → writable_at (fs w) q = true →
  os_open trunc (c :: q) w = Ret (c :: q) (create (c :: q) (File EmptyString) w).
Proof. intros Hq L W. unfold os_open. simpl. by rewrite Hq, L, W. Qed.

(** C8: started in a working directory that resolves, accepts new entries
    and has nothing below it, on a machine without CUDA and without MPS, the
    entry point returns (exit status 0); afterwards each of the thirteen
    distinct entries of [PROJECT_STRUCTURE] is a directory below the working
    directory and holds an empty regular file [.gitkeep], and
    [config/device_config.txt] holds "cpu". *)
Theorem main_in_empty_directory rt w :
  empty_directory (fs w) (cwd w) →
  cuda_is_available rt = false →
  mps_is_available rt = false →
  length PROJECT_STRUCTURE = 13 ∧ NoDup PROJECT_STRUCTURE ∧
  ∃ w', main rt w = Ret tt w' ∧
        exit_status (main rt w) = 0%Z ∧
        (∀ folder, folder ∈ PROJECT_STRUCTURE →
           is_dir (cwd w // folder) w' = true ∧
           content_at (marker (cwd w // folder)) w' = Some EmptyString) ∧
        content_at (cwd w // "config/device_config.txt") w' = Some "cpu".
Proof.
  intros Hempty Hcuda Hmps.
  split; [reflexivity|]. split; [apply project_structure_distinct|].
  set (root := cwd w). set (ws := emit INFO MsgStart w).
  (* the folders *)
  destruct (for_each_fresh root (fs w) Hempty PROJECT_STRUCTURE ws) as [w1 Hrun];
    [done | apply evolves_refl |].
  fold (initialize_directories root) in Hrun.
  pose proof (for_each_spec root PROJECT_STRUCTURE ws) as S.
  unfold initialize_directories in Hrun. rewrite Hrun in S.
  fold (initialize_directories root) in Hrun.
  destruct S as (E & Hcwd & Hl). change (cwd ws) with root in Hcwd.
  change (fs ws) with (fs w) in E.
  (* the configuration file *)
  assert (Hcf : config_file w1 = "device_config.txt" :: "config" :: root).
  { unfold config_file. by rewrite Hcwd. }
  assert (Hconfig : walk (fs w1) ("config" :: root) = None).
  { apply (Hl "config"). apply in_project_structure. vm_compute. reflexivity. }
  assert (Hnone : fs w1 !! config_file w1 = None).
  { rewrite Hcf. destruct (fs w1 !! _) as [n|] eqn:L; [|done].
    destruct (reached_below root (fs w) Hempty (fs w1)
                ["device_config.txt"; "config"] n E) as [_ N]; [done | done|].
    apply (new_tree_below root "device_config.txt" ["config"]) in N
      as [[_ (g & Hg & Hin)] | [_ [=]]].
    by destruct (not_reserved g _ Hg Hin). }
  assert (Hw : writable_at (fs w1) ("config" :: root) = true).
  { apply walk_lookup in Hconfig as (n & Ln & _). unfold writable_at. rewrite Ln.
    by destruct (reached_below root (fs w) Hempty (fs w1) ["config"] n E). }
  destruct (completes_when_open rt w1 (config_file w1)
              (create (config_file w1) (File EmptyString) w1)) as [w2 Hprobe].
  { unfold open_w. fold (config_file w1). rewrite Hcf in *.
    by apply os_open_creates. }
  assert (Hcpu : selected_device rt = "cpu").
  { unfold selected_device. by rewrite Hcuda, Hmps. }
  rewrite Hcpu in Hprobe.
  pose proof (check_hardware_acceleration_keeps _ _ _ _ Hprobe Hnone) as K.
  apply check_hardware_acceleration_spec in Hprobe as Hspec. destruct Hspec as [_ C].
  (* the entry point *)
  assert (Hmain : main rt w =
                  Ret tt (emit INFO (MsgRoot root) (emit INFO (MsgSuccess (upper "cpu")) w2))).
  { unfold main, bind, logger_info, os_getcwd.
    change (cwd (emit INFO MsgStart w)) with root. fold ws.
    by rewrite Hrun, Hprobe. }
  eexists. split; [exact Hmain|]. split; [by rewrite Hmain|]. split.
  - intros folder Hf. destruct (Hl folder Hf) as [Hd _]. split.
    + unfold is_dir. simpl. by rewrite (keeps_walk _ _ _ K Hd).
    + destruct (marker_after_run root ws w1 folder Hrun Hf) as (n & Ln & Kn).
      change (fs ws) with (fs w) in Kn.
      destruct Hempty as (_ & _ & He).
      assert (L0 : fs w !! marker (root // folder) = None).
      { rewrite marker_cons. unfold joinpath.
        by apply (He (".gitkeep" :: rev (parts folder))). }
      rewrite L0 in Kn. destruct (K _ _ Ln) as (n' & Ln' & Kn' & _).
      unfold content_at. simpl. by rewrite Ln', Kn', Kn.
  - unfold config_file in C. rewrite Hcwd in C. exact C.
Qed.

Lemma main_in_empty_directory_witness :
  ∃ w', main rt_cpu w_empty_project = Ret tt w' ∧
        exit_status (main rt_cpu w_empty_project) = 0%Z ∧
        (∀ folder, folder ∈ PROJECT_STRUCTURE →
           is_dir (["proj"] // folder) w' = true ∧
           content_at (marker (["proj"] // folder)) w' = Some EmptyString) ∧
        content_at (["proj"] // "config/device_config.txt") w' = Some "cpu".
Proof.
  refine (proj2 (proj2 (main_in_empty_directory rt_cpu w_empty_project _ _ _))).
  - split; [vm_compute; reflexivity|]. split; [vm_compute; reflexivity|].
    intros r Hr.
    assert (Hlen : (2 ≤ length (r ++ ["proj"]))%nat).
    { rewrite length_app. destruct r; [done | simpl; lia]. }
    change (cwd w_empty_project) with ["proj"].
    apply lookup_insert_None. split; [apply lookup_singleton_None|];
      intros E; rewrite <- E in Hlen; simpl in Hlen; lia.
  - reflexivity.
  - reflexivity.
Defined.

(** * Further properties of the script *)

(** ** The entry point, step by step *)

Lemma main_unfold rt w :
  main rt w =
  match initialize_directories (cwd w) (emit INFO MsgStart w) with
  | Ret _ w1 =>
      match check_hardware_acceleration rt w1 with
      | Ret d w2 =>
          Ret tt (emit INFO (MsgRoot (cwd w)) (emit INFO (MsgSuccess (upper d)) w2))
      | Raise e w2 => Raise e w2
      | Exit c w2 => Exit c w2
      end
  | Raise e w1 => Raise e w1
  | Exit c w1 => Exit c w1
  end.
Proof.
  unfold main, bind, logger_info, os_getcwd.
  change (cwd (emit INFO MsgStart w)) with (cwd w).
  destruct (initialize_directories (cwd w) (emit INFO MsgStart w)); [|done|done].
  destruct (check_hardware_acceleration rt w0); done.
Qed.

Lemma initialize_directories_spec root w :
  match initialize_directories root w with
  | Ret _ w' =>
      evolves (new_tree root PROJECT_STRUCTURE) (fs w) (fs w') ∧ cwd w' = cwd w ∧
      initialized root PROJECT_STRUCTURE (fs w')
  | Exit c w' =>
      c = 1%Z ∧ evolves (new_tree root PROJECT_STRUCTURE) (fs w) (fs w') ∧
      cwd w' = cwd w
  | Raise _ _ => False
  end.
Proof. apply for_each_spec. Qed.

Lemma config_file_cons w :
  config_file w = "device_config.txt" :: "config" :: cwd w.
Proof. reflexivity. Qed.

Lemma config_in_project_structure : "config" ∈ PROJECT_STRUCTURE.
Proof. apply in_project_structure. vm_compute. reflexivity. Qed.

(** The prober, on a storage that accepts the text, in terms of its one
    system call that can fail. *)
Lemma check_hardware_acceleration_open rt w :
  check_hardware_acceleration rt w =
  let line := selection_line rt in
  match os_open true (config_file w) w with
  | Ret f w2 =>
      Ret (selected_device rt) (append f (selected_device rt) (emit line.1 line.2 w2))
  | Raise e w2 => Raise e (emit line.1 line.2 w2)
  | Exit c w2 => Exit c (emit line.1 line.2 w2)
  end.
Proof.
  rewrite check_hardware_acceleration_unfold. simpl. rewrite open_w_emit.
  unfold open_w. fold (config_file w).
  destruct (os_open true (config_file w) w); reflexivity.
Qed.

Lemma check_hardware_acceleration_Ret rt w d w' :
  check_hardware_acceleration rt w = Ret d w' →
  let p := config_file w in
  let line := selection_line rt in
  d = selected_device rt ∧ walk (fs w) (parent p) = None ∧
  (fs w !! p = None ∧
   w' = append p d (emit line.1 line.2 (create p (File EmptyString) w)) ∨
   ∃ n, fs w !! p = Some n ∧ is_Dir n = false ∧ writable n = true ∧
        w' = append p d (emit line.1 line.2 (truncate p w))).
Proof.
  rewrite check_hardware_acceleration_open. cbv zeta.
  set (p := config_file w).
  pose proof (os_open_spec true p w) as S.
  destruct (os_open true p w) as [f w2|e2 w2|c w2]; [|discriminate|done].
  intros [= <- <-]. destruct S as (-> & Hw & S). split; [done|]. split; [exact Hw|].
  destruct (fs w !! p) as [n|].
  - right. destruct S as (D & W & ->). by exists n.
  - left. destruct S as [_ ->]. done.
Qed.

(** ** What the prober changes *)

Lemma set_mtime_same n : set_mtime (mtime n) n = n.
Proof. by destruct n. Qed.

Lemma selection_line_eta rt :
  ((selection_line rt).1, (selection_line rt).2) = selection_line rt.
Proof. by destruct (selection_line rt). Qed.

Lemma prober_effect rt w d w' :
  check_hardware_acceleration rt w = Ret d w' →
  let p := config_file w in
  (∀ q, q ≠ p → q ≠ parent p → fs w' !! q = fs w !! q) ∧
  (∃ n t, fs w !! parent p = Some n ∧ is_Dir n = true ∧
          fs w' !! parent p = Some (set_mtime t n)) ∧
  (∃ n, fs w' !! p = Some n ∧ nkind n = File d ∧ writable n = true) ∧
  cwd w' = cwd w ∧ log w' = log w ++ [selection_line rt].
Proof.
  intros H. apply check_hardware_acceleration_Ret in H. cbv zeta in *.
  rewrite config_file_cons in *. cbn [parent tail] in *.
  set (pp := "config" :: cwd w) in *.
  destruct H as (-> & Hw & H). apply walk_lookup in Hw as (nd & Ld & Dd).
  assert (Hne : pp ≠ "device_config.txt" :: pp).
  { intros E. apply (f_equal length) in E. simpl in E. lia. }
  destruct H as [[L ->] | (n & L & D & W & ->)];
    unfold append, create, truncate, emit; cbn [fs cwd log clock parent tail];
    rewrite selection_line_eta.
  - split; [|split; [|split]].
    + intros q Hq Hq'.
      by rewrite lookup_alter_ne, lookup_insert_ne, lookup_alter_ne.
    + exists nd, (clock w). split; [done|]. split; [done|].
      rewrite lookup_alter_ne, lookup_insert_ne by done.
      by rewrite lookup_alter_eq, Ld.
    + eexists. rewrite lookup_alter_eq, lookup_insert_eq. simpl. done.
    + done.
  - split; [|split; [|split]].
    + intros q Hq Hq'. by rewrite !lookup_alter_ne.
    + exists nd, (mtime nd). split; [done|]. split; [done|].
      rewrite !lookup_alter_ne by done. by rewrite set_mtime_same.
    + eexists. rewrite !lookup_alter_eq, L. simpl. done.
    + done.
Qed.

(** Apart from the configuration file, a completed run of the prober keeps
    every entry with its kind, content and permission. *)
Lemma prober_keeps_off rt w d w' q n :
  check_hardware_acceleration rt w = Ret d w' →
  q ≠ config_file w → fs w !! q = Some n →
  ∃ n', fs w' !! q = Some n' ∧ nkind n' = nkind n ∧ writable n' = writable n.
Proof.
  intros H Hq L. apply prober_effect in H as (Hoff & (nd & t & Ld & _ & Ld') & _).
  destruct (decide (q = parent (config_file w))) as [->|Hq'].
  - exists (set_mtime t nd). rewrite Ld in L. injection L as <-. done.
  - exists n. by rewrite Hoff.
Qed.

(** X7: a completed run of the prober changes nothing but the configuration
    file and the timestamp of the [config] directory that holds it: every
    other path looks up to exactly the same entry as before, the [config]
    directory is the same directory, the file is a writable regular file
    whose whole content is the returned token, the working directory is
    the same, and the log grew by the one line of the branch taken. *)
Theorem check_hardware_acceleration_footprint rt w d w' :
  check_hardware_acceleration rt w = Ret d w' →
  (∀ q, q ≠ cwd w // "config/device_config.txt" → q ≠ cwd w // "config" →
        fs w' !! q = fs w !! q) ∧
  (∃ n n', fs w !! (cwd w // "config") = Some n ∧
           fs w' !! (cwd w // "config") = Some n' ∧
           nkind n = Dir ∧ nkind n' = Dir ∧ writable n' = writable n) ∧
  (∃ n, fs w' !! (cwd w // "config/device_config.txt") = Some n ∧
        nkind n = File d ∧ writable n = true) ∧
  cwd w' = cwd w ∧ log w' = log w ++ [selection_line rt].
Proof.
  intros H. apply prober_effect in H as (Hoff & (n & t & L & D & L') & Hf & Hc & Hl).
  split; [exact Hoff|]. split; [|done].
  exists n, (set_mtime t n). split; [exact L|]. split; [exact L'|].
  unfold is_Dir in D. destruct (nkind n) eqn:K; [|discriminate]. simpl.
  by rewrite K.
Qed.

Lemma check_hardware_acceleration_footprint_witness :
  fs (final (check_hardware_acceleration rt_mps w_with_config)) !! ["proj"] =
  fs w_with_config !! ["proj"].
Proof.
  refine (proj1 (check_hardware_acceleration_footprint
                   rt_mps w_with_config "mps" _ _) ["proj"] _ _).
  - apply is_Ret_device; vm_compute; split; reflexivity.
  - discriminate.
  - discriminate.
Defined.

(** X8: when [config] below the working directory does not resolve to a
    directory, the prober raises the error of that resolution
    ([FileNotFoundError] for a missing component, [NotADirectoryError] for a
    regular file on the way) after it logged the line of the branch taken,
    and leaves the tree as it was. *)
Theorem check_hardware_acceleration_needs_config rt w e :
  walk (fs w) (cwd w // "config") = Some e →
  check_hardware_acceleration rt w =
    Raise e (emit (selection_line rt).1 (selection_line rt).2 w) ∧
  (e = FileNotFoundError ∨ e = NotADirectoryError).
Proof.
  intros Hw. split; [|by eapply walk_error].
  rewrite check_hardware_acceleration_open. cbv zeta.
  change (cwd w // "config") with ("config" :: cwd w) in Hw.
  unfold os_open. rewrite config_file_cons. cbn [walk_parent]. by rewrite Hw.
Qed.

Lemma check_hardware_acceleration_needs_config_witness :
  check_hardware_acceleration rt_cuda w_config_is_a_file =
    Raise NotADirectoryError
          (emit INFO (MsgCuda "NVIDIA A100" 42949672960) w_config_is_a_file) ∧
  (NotADirectoryError = FileNotFoundError ∨ NotADirectoryError = NotADirectoryError).
Proof.
  apply (check_hardware_acceleration_needs_config rt_cuda w_config_is_a_file).
  vm_compute. reflexivity.
Defined.



(** The token of an earlier run is lost when the storage refuses the new
    one. *)
Example stale_content_is_lost :
  content_at (config_file w_with_config) w_with_config = Some "stale text" ∧
  raised (check_hardware_acceleration_on Refuses rt_cpu w_with_config) = Some OSError ∧
  content_at (config_file w_with_config)
    (final (check_hardware_acceleration_on Refuses rt_cpu w_with_config)) =
  Some EmptyString.
Proof. vm_compute. split; [|split]; reflexivity. Qed.

(** ** What the initializer changes and what it logs *)

Lemma is_Exit_final (r : outcome unit) :
  is_Ret r = false → raised r = None → r = Exit (exit_status r) (final r).
Proof. destruct r; simpl; [discriminate | discriminate | reflexivity]. Qed.

(** X3: whatever its outcome, the initializer deletes nothing and overwrites
    nothing: an entry that exists before the run exists after it with the
    same kind, the same content and the same permission. *)
Theorem initialize_directories_never_destroys root w p n :
  fs w !! p = Some n →
  ∃ n', fs (final (initialize_directories root w)) !! p = Some n' ∧
        nkind n' = nkind n ∧ writable n' = writable n.
Proof.
  intros L. pose proof (initialize_directories_spec root w) as S.
  destruct (initialize_directories root w) as [[] w'|e w'|c w']; [| done |].
  - destruct S as ([K _] & _). by apply K.
  - destruct S as (_ & [K _] & _). by apply K.
Qed.

Lemma initialize_directories_never_destroys_witness :
  ∃ n', fs (final (initialize_directories ["proj"] w_src_is_a_file))
          !! ["src"; "proj"] = Some n' ∧
        nkind n' = File "print(1)" ∧ writable n' = true.
Proof.
  refine (initialize_directories_never_destroys ["proj"] w_src_is_a_file
            ["src"; "proj"] (Node (File "print(1)") 0 true) _).
  vm_compute. reflexivity.
Defined.

(** X4: whatever its outcome, every entry the initializer adds is writable
    and is either a directory on the way from the filesystem root to a
    listed folder, or an empty regular file [.gitkeep] directly in a listed
    folder. *)
Theorem initialize_directories_footprint root w p n' :
  fs (final (initialize_directories root w)) !! p = Some n' →
  fs w !! p = None →
  writable n' = true ∧
  (nkind n' = Dir ∧
   (∃ folder, folder ∈ PROJECT_STRUCTURE ∧ p `suffix_of` root // folder) ∨
   nkind n' = File EmptyString ∧
   (∃ folder, folder ∈ PROJECT_STRUCTURE ∧ p = root // folder // ".gitkeep")).
Proof.
  intros L' L. pose proof (initialize_directories_spec root w) as S.
  assert (A : adds (new_tree root PROJECT_STRUCTURE) (fs w)
                (fs (final (initialize_directories root w)))).
  { destruct (initialize_directories root w) as [[] w'|e w'|c w']; [| done |].
    - by destruct S as ([_ A] & _).
    - by destruct S as (_ & [_ A] & _). }
  destruct (A p n' L' L) as [W (f & Hf & [[Hs K] | [E K]])].
  - split; [done|]. left. eauto.
  - split; [done|]. right. eauto.
Qed.

Lemma initialize_directories_footprint_witness :
  writable (Node Dir 7 true) = true ∧
  (nkind (Node Dir 7 true) = Dir ∧
   (∃ folder, folder ∈ PROJECT_STRUCTURE ∧
              ["data"; "proj"] `suffix_of` ["proj"] // folder) ∨
   nkind (Node Dir 7 true) = File EmptyString ∧
   (∃ folder, folder ∈ PROJECT_STRUCTURE ∧
              ["data"; "proj"] = ["proj"] // folder // ".gitkeep")).
Proof.
  apply (initialize_directories_footprint ["proj"] w_empty_project).
  - vm_compute. reflexivity.
  - vm_compute. reflexivity.
Defined.

Lemma for_each_log root l w w' :
  for_each l (make_folder root) w = Ret tt w' →
  log w' = log w ++ map (fun f => (INFO, MsgCreated (root // f))) l.
Proof.
  revert w. induction l as [|f l IH]; intros w; simpl.
  - intros [= <-]. by rewrite app_nil_r.
  - unfold bind. pose proof (make_folder_spec root f w) as H.
    pose proof (folder_body_spec (root // f) w) as B.
    destruct (make_folder root f w) as [[] w1|e w1|c w1]; [|done|discriminate].
    rewrite H in B. destruct B as (_ & _ & _ & _ & L1).
    intros Hrun. rewrite (IH w1 Hrun), L1. by rewrite <- app_assoc.
Qed.

(** X5: a run of the initializer that completes adds to the log exactly one
    [INFO] line per entry of [PROJECT_STRUCTURE], in the order of the list,
    each naming the directory below the root; it logs nothing else and
    leaves the working directory as it was. *)
Theorem initialize_directories_log root w w' :
  initialize_directories root w = Ret tt w' →
  log w' = log w ++ map (fun folder => (INFO, MsgCreated (root // folder)))
                        PROJECT_STRUCTURE ∧
  cwd w' = cwd w.
Proof.
  intros H. split; [by apply for_each_log|].
  pose proof (initialize_directories_spec root w) as S. rewrite H in S. tauto.
Qed.

Lemma initialize_directories_log_witness :
  log (final (initialize_directories ["proj"] w_marker_has_content)) =
  log w_marker_has_content ++
  map (fun folder => (INFO, MsgCreated (["proj"] // folder))) PROJECT_STRUCTURE.
Proof.
  refine (proj1 (initialize_directories_log ["proj"] w_marker_has_content _ _)).
  apply is_Ret_final. vm_compute. reflexivity.
Defined.

Lemma for_each_exit root l w c w' :
  for_each l (make_folder root) w = Exit c w' →
  c = 1%Z ∧
  ∃ done folder rest e,
    l = done ++ folder :: rest ∧
    log w' = log w ++ map (fun f => (INFO, MsgCreated (root // f))) done ++
             [(ERROR, MsgFailed (root // folder) e)] ∧
    initialized root done (fs w').
Proof.
  revert w. induction l as [|f l IH]; intros w; simpl; [discriminate|].
  unfold bind. pose proof (make_folder_spec root f w) as H.
  pose proof (folder_body_spec (root // f) w) as B.
  destruct (make_folder root f w) as [[] w1|e w1|c1 w1]; [|done|].
  - rewrite H in B. destruct B as (Hd & Hm & _ & _ & L1). intros Hrun.
    pose proof (for_each_spec root l w1) as S. rewrite Hrun in S.
    destruct S as (_ & [K _] & _).
    destruct (IH w1 Hrun) as (-> & done & folder & rest & e & -> & Hl & Hi).
    split; [done|]. exists (f :: done), folder, rest, e.
    split; [done|]. split.
    + rewrite Hl, L1. simpl. by rewrite <- app_assoc.
    + intros g Hg. apply elem_of_cons in Hg as [-> | Hg]; [|by apply Hi].
      split; [by eapply keeps_walk | by eapply keeps_has_marker].
  - destruct H as (e & w2 & Hb & -> & ->). rewrite Hb in B. destruct B as [_ [_ L]].
    intros [= <- <-]. split; [done|]. exists [], f, l, e.
    split; [done|]. split; [simpl; by rewrite L|]. intros g Hg. inversion Hg.
Qed.

(** X6: when the initializer exits, the status is 1 and the list splits
    into the folders done, the folder that failed and the folders never
    tried: the log grew by one [INFO] line per folder done, in order, and by
    one final [ERROR] line that names the failed folder; every folder done
    is, in the state the process ends in, a directory with its [.gitkeep]
    (no rollback). *)
Theorem initialize_directories_exit root w c w' :
  initialize_directories root w = Exit c w' →
  c = 1%Z ∧
  ∃ done folder rest e,
    PROJECT_STRUCTURE = done ++ folder :: rest ∧
    log w' = log w ++ map (fun f => (INFO, MsgCreated (root // f))) done ++
             [(ERROR, MsgFailed (root // folder) e)] ∧
    ∀ f, f ∈ done →
         is_dir (root // f) w' = true ∧ is_Some (fs w' !! (root // f // ".gitkeep")).
Proof.
  intros H. apply for_each_exit in H
    as (-> & done & folder & rest & e & HS & Hl & Hi).
  split; [done|]. exists done, folder, rest, e. split; [done|]. split; [done|].
  intros f Hf. destruct (Hi f Hf) as [Hd (n & Ln & _)].
  split; [unfold is_dir; by rewrite Hd | by exists n].
Qed.

Lemma initialize_directories_exit_witness :
  exit_status (initialize_directories ["proj"] w_src_is_a_file) = 1%Z.
Proof.
  refine (proj1 (initialize_directories_exit ["proj"] w_src_is_a_file _
                   (final (initialize_directories ["proj"] w_src_is_a_file)) _)).
  apply is_Exit_final; vm_compute; reflexivity.
Defined.

(** X13: a regular file that sits on the path of a listed folder (at the
    folder itself or at one of its parents) is never replaced: the
    initializer exits with status 1. *)
Theorem file_in_the_way root w folder q n :
  folder ∈ PROJECT_STRUCTURE →
  q `suffix_of` root // folder →
  fs w !! q = Some n → is_Dir n = false →
  ∃ w', initialize_directories root w = Exit 1 w' ∧
        ∃ n', fs w' !! q = Some n' ∧ nkind n' = nkind n.
Proof.
  intros Hf Hs L D. pose proof (initialize_directories_spec root w) as S.
  destruct (initialize_directories root w) as [[] w'|e w'|c w']; [| done |].
  - destruct S as ([K _] & _ & Hi). destruct (Hi folder Hf) as [Hd _].
    apply (walk_suffix _ _ _ Hs), walk_lookup in Hd as (n' & L' & D').
    rewrite (keeps_is_Dir _ _ _ _ _ K L L') in D'. congruence.
  - destruct S as (-> & [K _] & _). exists w'. split; [done|].
    destruct (K _ _ L) as (n' & L' & Kn & _). eauto.
Qed.

Lemma file_in_the_way_witness :
  ∃ w', initialize_directories ["proj"] w_src_is_a_file = Exit 1 w' ∧
        ∃ n', fs w' !! ["src"; "proj"] = Some n' ∧ nkind n' = File "print(1)".
Proof.
  refine (file_in_the_way ["proj"] w_src_is_a_file "src/utils" ["src"; "proj"]
            (Node (File "print(1)") 0 true) _ _ _ _).
  - apply in_project_structure. vm_compute. reflexivity.
  - exists ["utils"]. reflexivity.
  - vm_compute. reflexivity.
  - reflexivity.
Defined.

(** ** The entry point as a whole *)

Lemma os_open_existing trunc p w n :
  walk_parent (fs w) p = None → fs w !! p = Some n →
  is_Dir n = false → writable n = true →
  os_open trunc p w = Ret p (if trunc then truncate p w else w).
Proof. intros Hw L D W. unfold os_open. by rewrite Hw, L, D, W. Qed.

Lemma config_file_not_on_the_way root folder :
  folder ∈ PROJECT_STRUCTURE →
  ¬ ("device_config.txt" :: "config" :: root) `suffix_of` root // folder.
Proof.
  intros Hf Hs. apply (suffix_below _ ["config"]) in Hs.
  apply list_elem_of_In, in_rev, list_elem_of_In in Hs.
  by destruct (not_reserved folder _ Hf Hs).
Qed.

(** Resolution survives a change that spares every component. *)
Lemma walk_off (p : path) (m m' : gmap path node) (x : path) :
  (∀ q n, q ≠ p → m !! q = Some n →
          ∃ n', m' !! q = Some n' ∧ nkind n' = nkind n ∧ writable n' = writable n) →
  ¬ p `suffix_of` x → walk m x = None → walk m' x = None.
Proof.
  intros K. induction x as [|c x IH]; intros Hs Hw.
  - simpl in *. apply check_None in Hw as (n & L & D).
    destruct (K [] n) as (n' & L' & Kn & _); [|done|].
    { intros E. apply Hs. by rewrite <- E. }
    apply check_None. exists n'. split; [done|]. unfold is_Dir in *. by rewrite Kn.
  - apply walk_cons in Hw as [Hx Hc]. apply walk_cons. split.
    + apply IH; [|done]. intros Hp. apply Hs. by apply suffix_cons_r.
    + apply check_None in Hc as (n & L & D).
      destruct (K (c :: x) n) as (n' & L' & Kn & _); [|done|].
      { intros E. apply Hs. by rewrite <- E. }
      apply check_None. exists n'. split; [done|]. unfold is_Dir in *. by rewrite Kn.
Qed.

(** The prober leaves an initialized tree initialized. *)
Lemma prober_initialized rt w d w' :
  check_hardware_acceleration rt w = Ret d w' →
  initialized (cwd w) PROJECT_STRUCTURE (fs w) →
  initialized (cwd w) PROJECT_STRUCTURE (fs w').
Proof.
  intros H Hi f Hf. destruct (Hi f Hf) as [Hd (n & Ln & W)]. split.
  - eapply (walk_off (config_file w)); [|by apply config_file_not_on_the_way|done].
    intros q nq Hq Lq. by eapply prober_keeps_off.
  - destruct (prober_keeps_off rt w d w' (marker (cwd w // f)) n H)
      as (n' & Ln' & _ & W'); [by rewrite marker_cons | done |].
    exists n'. split; [done | congruence].
Qed.

Lemma main_Ret rt w w' :
  main rt w = Ret tt w' →
  ∃ w1 w2,
    initialize_directories (cwd w) (emit INFO MsgStart w) = Ret tt w1 ∧
    check_hardware_acceleration rt w1 = Ret (selected_device rt) w2 ∧
    cwd w1 = cwd w ∧
    w' = emit INFO (MsgRoot (cwd w))
           (emit INFO (MsgSuccess (upper (selected_device rt))) w2).
Proof.
  rewrite main_unfold.
  pose proof (initialize_directories_spec (cwd w) (emit INFO MsgStart w)) as S.
  destruct (initialize_directories (cwd w) (emit INFO MsgStart w))
    as [[] w1|e w1|c w1]; [|discriminate|discriminate].
  destruct S as (_ & Hc & _).
  destruct (check_hardware_acceleration rt w1) as [d w2|e w2|c w2] eqn:P;
    [|discriminate|discriminate].
  intros [= <-]. apply check_hardware_acceleration_spec in P as Hd.
  destruct Hd as [-> _]. exists w1, w2. done.
Qed.

(** X10: when the entry point returns, the log grew by, in this order: the
    start line, one [INFO] line per entry of [PROJECT_STRUCTURE] naming the
    directory below the working directory, the line of the branch the
    prober took, the success line with the selected device in upper case
    ("CPU", "CUDA" or "MPS"), and the line with the working directory. *)
Theorem main_log rt w w' :
  main rt w = Ret tt w' →
  log w' =
    log w ++ [(INFO, MsgStart)] ++
    map (fun folder => (INFO, MsgCreated (cwd w // folder))) PROJECT_STRUCTURE ++
    [selection_line rt;
     (INFO, MsgSuccess (upper (selected_device rt)));
     (INFO, MsgRoot (cwd w))] ∧
  upper (selected_device rt) ∈ ["CPU"; "CUDA"; "MPS"].
Proof.
  intros H. apply main_Ret in H as (w1 & w2 & Hi & Hp & Hc & ->). split.
  - apply for_each_log in Hi. apply prober_effect in Hp as (_ & _ & _ & _ & Hl).
    simpl. rewrite Hl, Hi. simpl. rewrite <- !app_assoc. reflexivity.
  - unfold selected_device.
    destruct (cuda_is_available rt); [|destruct (mps_is_available rt)];
      apply (bool_decide_unpack _); vm_compute; reflexivity.
Qed.

Lemma main_log_witness :
  log (final (main rt_cuda w_empty_project)) =
    log w_empty_project ++ [(INFO, MsgStart)] ++
    map (fun folder => (INFO, MsgCreated (cwd w_empty_project // folder)))
        PROJECT_STRUCTURE ++
    [selection_line rt_cuda;
     (INFO, MsgSuccess (upper (selected_device rt_cuda)));
     (INFO, MsgRoot (cwd w_empty_project))].
Proof.
  refine (proj1 (main_log rt_cuda w_empty_project _ _)).
  apply is_Ret_final. vm_compute. reflexivity.
Defined.

(** X11: whenever the entry point returns, from whatever tree it started,
    every entry of [PROJECT_STRUCTURE] is a directory below the working
    directory and has its [.gitkeep], [config/device_config.txt] holds
    exactly the selected device, and the working directory is unchanged: the
    prober does not undo what the initializer made. *)
Theorem main_postcondition rt w w' :
  main rt w = Ret tt w' →
  (∀ folder, folder ∈ PROJECT_STRUCTURE →
     is_dir (cwd w // folder) w' = true ∧
     is_Some (fs w' !! (cwd w // folder // ".gitkeep"))) ∧
  content_at (cwd w // "config/device_config.txt") w' = Some (selected_device rt) ∧
  cwd w' = cwd w.
Proof.
  intros H. apply main_Ret in H as (w1 & w2 & Hi & Hp & Hc & ->).
  pose proof (initialize_directories_spec (cwd w) (emit INFO MsgStart w)) as S.
  rewrite Hi in S. destruct S as (_ & _ & Hini). rewrite <- Hc in Hini.
  pose proof (prober_initialized _ _ _ _ Hp Hini) as Hini2. rewrite Hc in Hini2.
  split; [|split].
  - intros folder Hf. destruct (Hini2 folder Hf) as [Hd (n & Ln & _)].
    split; [unfold is_dir; simpl; by rewrite Hd | by exists n].
  - apply check_hardware_acceleration_spec in Hp as [_ C].
    unfold config_file in C. rewrite Hc in C. exact C.
  - apply prober_effect in Hp as (_ & _ & _ & Hcw & _). simpl. congruence.
Qed.

Lemma main_postcondition_witness :
  content_at (cwd w_marker_is_dir // "config/device_config.txt")
             (final (main rt_mps w_marker_is_dir)) = Some (selected_device rt_mps).
Proof.
  refine (proj1 (proj2 (main_postcondition rt_mps w_marker_is_dir _ _))).
  apply is_Ret_final. vm_compute. reflexivity.
Defined.

(** X12: the entry point can be run again: once it returned, a second run
    in the state it left returns as well, whatever the accelerator flags
    are by then, and the configuration file then holds the device of the
    second run. *)
Theorem main_again rt w w' rt2 :
  main rt w = Ret tt w' →
  ∃ w'', main rt2 w' = Ret tt w'' ∧
         content_at (cwd w // "config/device_config.txt") w'' =
         Some (selected_device rt2).
Proof.
  intros H. apply main_Ret in H as (w1 & w2 & Hi & Hp & Hc & ->).
  pose proof (initialize_directories_spec (cwd w) (emit INFO MsgStart w)) as S.
  rewrite Hi in S. destruct S as (_ & _ & Hini). rewrite <- Hc in Hini.
  pose proof (prober_initialized _ _ _ _ Hp Hini) as Hini2.
  pose proof (prober_effect _ _ _ _ Hp) as (_ & _ & (nc & Lc & Kc & Wc) & Hcw & _).
  cbv zeta in Lc. rewrite Hc in *.
  set (w' := emit INFO (MsgRoot (cwd w))
               (emit INFO (MsgSuccess (upper (selected_device rt))) w2)).
  assert (Hcw' : cwd w' = cwd w) by (simpl; congruence).
  (* the initializer, again *)
  destruct (for_each_initialized (cwd w) PROJECT_STRUCTURE PROJECT_STRUCTURE
              (emit INFO MsgStart w')) as (w3 & Hrun & St); [done | exact Hini2 |].
  fold (initialize_directories (cwd w)) in Hrun.
  apply same_tree_keeps in St. change (fs (emit INFO MsgStart w')) with (fs w2) in St.
  pose proof (initialize_directories_spec (cwd w) (emit INFO MsgStart w')) as S.
  rewrite Hrun in S. destruct S as (_ & Hc3 & Hini3).
  change (cwd (emit INFO MsgStart w')) with (cwd w') in Hc3. rewrite Hcw' in Hc3.
  (* the prober, again *)
  destruct (St _ _ Lc) as (n3 & L3 & K3 & W3).
  destruct (completes_when_open rt2 w3 (config_file w3)
              (truncate (config_file w3) w3)) as [w4 Hp4].
  { unfold open_w. fold (config_file w3).
    apply (os_open_existing true _ _ n3).
    - rewrite config_file_cons, Hc3. simpl.
      apply (Hini3 "config" config_in_project_structure).
    - unfold config_file in *. by rewrite Hc3, <- Hc.
    - unfold is_Dir. by rewrite K3, Kc.
    - congruence. }
  exists (emit INFO (MsgRoot (cwd w'))
            (emit INFO (MsgSuccess (upper (selected_device rt2))) w4)).
  split.
  - rewrite main_unfold, Hcw', Hrun, Hp4. reflexivity.
  - apply check_hardware_acceleration_spec in Hp4 as [_ C].
    unfold config_file in C. rewrite Hc3 in C. exact C.
Qed.

Lemma main_again_witness :
  ∃ w'', main rt_cuda (final (main rt_cpu w_empty_project)) = Ret tt w'' ∧
         content_at (cwd w_empty_project // "config/device_config.txt") w'' =
         Some (selected_device rt_cuda).
Proof.
  apply (main_again rt_cpu w_empty_project _ rt_cuda).
  apply is_Ret_final. vm_compute. reflexivity.
Defined.

(** X15: the prober can be run again: after a run that completed, a second
    run from the state it left completes as well, whatever the flags are by
    then, and replaces the content of the configuration file by the device
    of the second run. *)
Theorem check_hardware_acceleration_again rt w d w' rt2 :
  check_hardware_acceleration rt w = Ret d w' →
  ∃ w'', check_hardware_acceleration rt2 w' = Ret (selected_device rt2) w'' ∧
         content_at (cwd w // "config/device_config.txt") w'' =
         Some (selected_device rt2).
Proof.
  intros H.
  pose proof (prober_effect _ _ _ _ H) as (_ & _ & (nc & Lc & Kc & Wc) & Hcw & _).
  cbv zeta in Lc.
  assert (Hw : walk (fs w') ("config" :: cwd w) = None).
  { apply check_hardware_acceleration_Ret in H as Hr. destruct Hr as (_ & Hw & _).
    eapply (walk_off (config_file w)); [| |exact Hw].
    - intros q nq Hq Lq. by eapply prober_keeps_off.
    - rewrite config_file_cons. intros Hs. apply suffix_length in Hs.
      simpl in Hs. lia. }
  destruct (completes_when_open rt2 w' (config_file w')
              (truncate (config_file w') w')) as [w'' Hp].
  { unfold open_w. fold (config_file w').
    apply (os_open_existing true _ _ nc).
    - rewrite config_file_cons, Hcw. exact Hw.
    - unfold config_file in *. by rewrite Hcw.
    - unfold is_Dir. by rewrite Kc.
    - exact Wc. }
  exists w''. split; [exact Hp|].
  apply check_hardware_acceleration_spec in Hp as [_ C].
  unfold config_file in C. rewrite Hcw in C. exact C.
Qed.

Lemma check_hardware_acceleration_again_witness :
  ∃ w'', check_hardware_acceleration rt_cpu
           (final (check_hardware_acceleration rt_cuda w_other_project)) =
         Ret (selected_device rt_cpu) w'' ∧
         content_at (cwd w_other_project // "config/device_config.txt") w'' =
         Some (selected_device rt_cpu).
Proof.
  apply (check_hardware_acceleration_again rt_cuda w_other_project "cuda").
  apply is_Ret_device; vm_compute; split; reflexivity.
Defined.
